(** * mhcflurry: worker pools with GPU assignments, and the downloads resolver

    A shallow embedding of [mhcflurry/parallelism.py] and of
    [mhcflurry/downloads.py].

    Conventions of the embedding.
    - A Python [int] is a [Z]; [range(n)] is the list [0; 1; ...; n-1]
      (empty when [n <= 0]).
    - An optional argument whose default is [None] is an [option]; the
      truth value Python gives to a value in [if x:] is written out
      ([None], [0], the empty string and the empty list are false).
    - The dict [gpu_assignments_remaining] is an association list in
      insertion order, since [sorted] is stable with respect to the order in
      which the dict yields its keys.
    - A function that may raise returns an [Outcome]; the functions that
      build pools also log, in order, the calls they make to
      [set_keras_backend] and to the constructor of [Pool]; a
      [multiprocessing.Queue] is the list of what it holds.
    - Console output ([print], [pprint]) is not part of the model. *)

From Stdlib Require Import ZArith List String Ascii Bool Lia Permutation.
Import ListNotations.
Local Open Scope Z_scope.

(** ** Python values and control *)

Module Py.

(** [range(n)] for an integer [n]. *)
Definition range (n : Z) : list Z :=
  map Z.of_nat (seq 0 (Z.to_nat n)).

(** Truth value of an [int]. *)
Definition truthy_int (n : Z) : bool := negb (n =? 0).

(** Truth value of an optional [int] ([None] is false). *)
Definition truthy_opt_int (n : option Z) : bool :=
  match n with
  | None => false
  | Some v => truthy_int v
  end.

(** Truth value of a [str]. *)
Definition truthy_str (s : string) : bool :=
  match s with
  | EmptyString => false
  | String _ _ => true
  end.

(** Truth value of an optional [str]. *)
Definition truthy_opt_str (s : option string) : bool :=
  match s with
  | None => false
  | Some v => truthy_str v
  end.

(** Truth value of a list. *)
Definition truthy_list {A : Type} (l : list A) : bool :=
  match l with
  | [] => false
  | _ :: _ => true
  end.

(** An exception object, observed through the name of its class and
    through what [str()] returns on it. *)
Record Exception : Type := mkException {
  exc_type : string;
  exc_str : string
}.

(** The result of a call: a value, or a raised exception of type [E]. *)
Inductive Outcome (E A : Type) : Type :=
| Return (a : A)
| Raise (e : E).
Arguments Return {E A} a.
Arguments Raise {E A} e.

(** [assert cond] with no message. *)
Definition AssertionError : Exception := mkException "AssertionError" "".

(** [assert cond, msg]. *)
Definition AssertionError_msg (msg : string) : Exception :=
  mkException "AssertionError" msg.

Definition RuntimeError (msg : string) : Exception :=
  mkException "RuntimeError" msg.

End Py.
Import Py.

(** ** Insertion-ordered dictionaries with integer keys and values *)

Module Dict.

Definition t : Type := list (Z * Z).

Definition keys (d : t) : list Z := map fst d.

(** [d[k]], [None] standing for [KeyError]. *)
Fixpoint get (d : t) (k : Z) : option Z :=
  match d with
  | [] => None
  | (k', v) :: d' => if k' =? k then Some v else get d' k
  end.

(** [d[k] = v]: an existing key keeps its position, a new key goes last. *)
Fixpoint set (d : t) (k v : Z) : t :=
  match d with
  | [] => [(k, v)]
  | (k', v') :: d' =>
      if k' =? k then (k', v) :: d' else (k', v') :: set d' k v
  end.

(** [del d[k]]. *)
Fixpoint del (d : t) (k : Z) : t :=
  match d with
  | [] => []
  | (k', v') :: d' => if k' =? k then d' else (k', v') :: del d' k
  end.

(** [dict((k, v) for k in ks)]. *)
Definition of_keys (ks : list Z) (v : Z) : t :=
  fold_left (fun d k => set d k v) ks [].

End Dict.

(** ** [sorted(iterable, key=...)]: a stable sort by key *)

Section Sorted.
Variable key : Z -> Z.

(** Insert [x] in front of the first element whose key is not smaller,
    so that [x], which came earlier in the input, stays ahead of the
    elements with an equal key. *)
Fixpoint insert_by_key (x : Z) (l : list Z) : list Z :=
  match l with
  | [] => [x]
  | y :: l' =>
      if key x <=? key y then x :: y :: l' else y :: insert_by_key x l'
  end.

Fixpoint sorted (l : list Z) : list Z :=
  match l with
  | [] => []
  | x :: l' => insert_by_key x (sorted l')
  end.
End Sorted.

(** ** mhcflurry/parallelism.py *)

(** The keyword arguments [worker_init] receives in one worker. *)
Record InitKwargs : Type := mkInitKwargs {
  gpu_device_nums : list Z;
  keras_backend : option string
}.

(** Calls to collaborators outside this module, in the order they are
    made: [set_keras_backend(backend)] and the construction of the [Pool]. *)
Inductive Event : Type :=
| EvSetKerasBackend (backend : string)
| EvPool (processes : Z).

(** A computation that logs its calls and may raise. *)
Definition Run (A : Type) : Type := list Event * Outcome Exception A.

Definition ret {A : Type} (a : A) : Run A := ([], Return a).

Definition raise {A : Type} (e : Exception) : Run A := ([], Raise e).

Definition call (ev : Event) : Run unit := ([ev], Return tt).

Definition bind {A B : Type} (m : Run A) (f : A -> Run B) : Run B :=
  match m with
  | (t, Return a) => let '(t', r) := f a in (t ++ t', r)
  | (t, Raise e) => (t, Raise e)
  end.

Notation "x <- m ;; k" := (bind m (fun x => k))
  (at level 61, m at next level, right associativity).
Notation "m ;;; k" := (bind m (fun _ => k))
  (at level 61, right associativity).

(** [assert cond]. *)
Definition assert (cond : bool) : Run unit :=
  if cond then ret tt else raise AssertionError.

(** A [multiprocessing.Queue], as the list of what it holds, oldest first. *)
Module Queue.
Definition t (K : Type) : Type := list K.

Definition put {K : Type} (q : t K) (x : K) : t K := q ++ [x].

(** [q.get()]: the oldest element and the rest; [None] on an empty
    queue ([queue.Empty] when not blocking, no return when blocking). *)
Definition get {K : Type} (q : t K) : option (K * t K) :=
  match q with
  | [] => None
  | x :: q' => Some (x, q')
  end.
End Queue.

(** What the workers of a pool run when they start: nothing, the
    [initializer] without arguments, or [worker_init_entry_point] with
    [initargs = (initializer, kwargs_queue, kwargs_queue_backup)]. *)
Inductive PoolInitializer (F K : Type) : Type :=
| NoInitializer
| Initializer (initializer : F)
| EntryPoint (initializer : F) (kwargs_queue kwargs_queue_backup : Queue.t K).
Arguments NoInitializer {F K}.
Arguments Initializer {F K} initializer.
Arguments EntryPoint {F K} initializer kwargs_queue kwargs_queue_backup.

(** [pool_kwargs], and the pool made from it: a pool is known by the
    keyword arguments its constructor was called with. The key
    [maxtasksperchild] is [None] when the dict does not hold it. *)
Record Pool (F K : Type) : Type := mkPool {
  processes : Z;
  maxtasksperchild : option Z;
  pool_initializer : PoolInitializer F K
}.
Arguments mkPool {F K} processes maxtasksperchild pool_initializer.
Arguments processes {F K} p.
Arguments maxtasksperchild {F K} p.
Arguments pool_initializer {F K} p.

(** The one initializer [worker_pool_with_gpu_assignments] installs. *)
Inductive InitFunction : Type := worker_init.

(** One turn of the loop over the workers (lines 87-98): the dict
    afterwards and the worker's [gpu_assignment]. *)
Definition assign_gpu (gpu_assignments_remaining : Dict.t)
  : Dict.t * list Z :=
  if truthy_list gpu_assignments_remaining then
    let key := fun k =>
      match Dict.get gpu_assignments_remaining k with
      | Some v => v
      | None => 0
      end in
    let gpu_num := hd 0 (sorted key (Dict.keys gpu_assignments_remaining)) in
    let d1 := Dict.set gpu_assignments_remaining gpu_num (key gpu_num - 1) in
    let d2 :=
      match Dict.get d1 gpu_num with
      | Some v => if truthy_int v then d1 else Dict.del d1 gpu_num
      | None => d1
      end in
    (d2, [gpu_num])
  else
    (gpu_assignments_remaining, []).

(** The loop [for worker_num in range(num_workers)] (lines 86-105). *)
Fixpoint assign_workers (workers : list Z) (backend : option string)
    (gpu_assignments_remaining : Dict.t) (worker_init_kwargs : list InitKwargs)
  : Dict.t * list InitKwargs :=
  match workers with
  | [] => (gpu_assignments_remaining, worker_init_kwargs)
  | _ :: workers' =>
      let '(d, gpu_assignment) := assign_gpu gpu_assignments_remaining in
      assign_workers workers' backend d
        (worker_init_kwargs ++ [mkInitKwargs gpu_assignment backend])
  end.

Definition opt_string_eqb (a b : option string) : bool :=
  match a, b with
  | Some x, Some y => String.eqb x y
  | None, None => true
  | _, _ => false
  end.

(** Lines 75-105: the value of [worker_init_kwargs] when
    [make_worker_pool] is called. *)
Definition plan_worker_init_kwargs
    (num_workers num_gpus : Z) (backend : option string)
    (max_workers_per_gpu : Z) : option (list InitKwargs) :=
  if truthy_int num_gpus then
    let backend :=
      if negb (opt_string_eqb backend (Some "tensorflow-default"%string))
      then Some "tensorflow-default"%string
      else backend in
    let gpu_assignments_remaining :=
      Dict.of_keys (range num_gpus) max_workers_per_gpu in
    Some (snd (assign_workers (range num_workers) backend
                 gpu_assignments_remaining []))
  else None.

Section Pools.

(** What [multiprocessing.cpu_count()] returns on the machine. *)
Variable cpu_count : Z.

Context {F K : Type}.

(** Lines 171-183: the initializer of the pool. *)
Definition make_pool_initializer (processes : Z) (initializer : option F)
    (initializer_kwargs_per_process : option (list K))
  : Run (PoolInitializer F K) :=
  match initializer with
  | Some initializer =>
      match initializer_kwargs_per_process with
      | Some kwargs_list =>
          if truthy_list kwargs_list then
            assert (Z.of_nat (List.length kwargs_list) =? processes) ;;;
            let '(kwargs_queue, kwargs_queue_backup) :=
              fold_left
                (fun '(q, qb) kwargs =>
                   (Queue.put q kwargs, Queue.put qb kwargs))
                kwargs_list ([], []) in
            ret (EntryPoint initializer kwargs_queue kwargs_queue_backup)
          else ret (Initializer initializer)
      | None => ret (Initializer initializer)
      end
  | None => ret NoInitializer
  end.

Definition make_worker_pool (processes : option Z) (initializer : option F)
    (initializer_kwargs_per_process : option (list K))
    (max_tasks_per_worker : option Z) : Run (Pool F K) :=
  let processes :=
    match processes with
    | Some p => if truthy_int p then p else cpu_count
    | None => cpu_count
    end in
  let maxtasksperchild :=
    if truthy_opt_int max_tasks_per_worker then max_tasks_per_worker
    else None in
  init <- make_pool_initializer processes initializer
            initializer_kwargs_per_process ;;
  call (EvPool processes) ;;;
  ret (mkPool processes maxtasksperchild init).

End Pools.

Section WorkerPool.

Variable cpu_count : Z.

Definition set_keras_backend (backend : string) : Run unit :=
  call (EvSetKerasBackend backend).

Definition worker_pool_with_gpu_assignments
    (num_jobs num_gpus : Z) (backend : option string)
    (max_workers_per_gpu : Z) (max_tasks_per_worker : option Z)
  : Run (option (Pool InitFunction InitKwargs)) :=
  let num_workers := if truthy_int num_jobs then num_jobs else cpu_count in
  if num_workers =? 0 then
    match backend with
    | Some b => if truthy_str b then set_keras_backend b else ret tt
    | None => ret tt
    end ;;;
    ret None
  else
    let worker_init_kwargs :=
      plan_worker_init_kwargs num_workers num_gpus backend
        max_workers_per_gpu in
    worker_pool <- make_worker_pool cpu_count (Some num_workers)
                     (Some worker_init) worker_init_kwargs
                     max_tasks_per_worker ;;
    ret (Some worker_pool).

End WorkerPool.

(** *** The pool entry point, run once in each worker *)

Section EntryPoint.

Context {K : Type}.

(** The empty dict [{}]. *)
Variable empty_kwargs : K.

(** [init_function], called with the keyword arguments. *)
Variable init_function : K -> Outcome Exception unit.

(** Where a run of the entry point in one worker ends. *)
Inductive Entry : Type :=
| Blocks
    (* [backup_arg_queue.get(block=True)] on a queue that nobody fills *)
| Fails (e : Exception)
    (* raised before [init_function] is reached *)
| Initializes
    (arg_queue backup_arg_queue : option (Queue.t K))
    (finalize : list K)
    (kwargs : K)
    (result : Outcome Exception unit).
    (* the queues afterwards, the arguments of the registered
       [Finalize(None, arg_queue.put, (kwargs,))] callbacks, the keyword
       arguments handed to [init_function] and what it did *)

Definition AttributeError : Exception :=
  mkException "AttributeError"
    "'NoneType' object has no attribute 'get'".

Definition worker_init_entry_point
    (arg_queue backup_arg_queue : option (Queue.t K)) : Entry :=
  match arg_queue with
  | Some q =>
      match Queue.get q with
      | Some (kwargs, q') =>
          Initializes (Some q') backup_arg_queue [kwargs] kwargs
            (init_function kwargs)
      | None =>
          match backup_arg_queue with
          | Some qb =>
              match Queue.get qb with
              | Some (kwargs, qb') =>
                  let qb'' := Queue.put qb' kwargs in
                  Initializes (Some q) (Some qb'') [kwargs] kwargs
                    (init_function kwargs)
              | None => Blocks
              end
          | None => Fails AttributeError
          end
      end
  | None =>
      Initializes None backup_arg_queue [] empty_kwargs
        (init_function empty_kwargs)
  end.

End EntryPoint.

(** *** Exceptions that keep their traceback *)

(** The characters [\n] and [\t] of the Python literals. *)
Definition nl : string := String (ascii_of_nat 10) EmptyString.
Definition tab : string := String (ascii_of_nat 9) EmptyString.

Section Wrap.

(** Traceback objects, and [traceback.format_exception]. *)
Variable Traceback : Type.
Variable format_exception :
  string -> Exception -> Traceback -> list string.

(** An instance of [WrapException]. Its [__init__] takes no argument
    besides [self], so the [args] of every instance is the empty tuple. *)
Record WrapException : Type := mkWrapException {
  exception : Exception;
  formatted : string
}.

(** [sys.exc_info()] while the exception [e] with traceback [tb] is
    handled. *)
Definition exc_info (e : Exception) (tb : Traceback)
  : string * Exception * Traceback :=
  (exc_type e, e, tb).

(** [WrapException.__init__], in the handler of [(e, tb)]. *)
Definition WrapException__init__ (e : Exception) (tb : Traceback)
  : WrapException :=
  let '(exc_type, exc_value, exc_tb) := exc_info e tb in
  {| exception := exc_value;
     formatted :=
       String.concat "" (format_exception exc_type exc_value exc_tb) |}.

(** [Exception.__str__(self)] on a [WrapException]: the string of an
    exception whose [args] is the empty tuple, that is the empty string. *)
Definition Exception__str__ (self : WrapException) : string := "".

Definition WrapException__str__ (self : WrapException) : string :=
  (Exception__str__ self ++ nl ++ "Original traceback:" ++ nl
     ++ formatted self)%string.

(** A Python callable: it returns, or raises [e] with traceback [tb]. *)
Definition Callable (X A : Type) : Type :=
  X -> Outcome (Exception * Traceback) A.

Definition call_wrapped {X A : Type} (function : Callable X A) (args : X)
  : Outcome WrapException A :=
  match function args with
  | Return a => Return a
  | Raise (e, tb) => Raise (WrapException__init__ e tb)
  end.

Definition call_wrapped_kwargs {X A : Type} (function : Callable X A)
    (kwargs : X) : Outcome WrapException A :=
  call_wrapped function kwargs.

End Wrap.

(** ** mhcflurry/downloads.py *)

(** The string operations [get_path] takes from the Python library. *)
Module Str.

Local Open Scope string_scope.

(** [c in s] for a one-character string [c]. *)
Fixpoint contains_char (c : ascii) (s : string) : bool :=
  match s with
  | EmptyString => false
  | String a s' => Ascii.eqb a c || contains_char c s'
  end.

Fixpoint forallb (p : ascii -> bool) (s : string) : bool :=
  match s with
  | EmptyString => true
  | String a s' => p a && forallb p s'
  end.

(** [s.startswith(c)] and [s.endswith(c)] for a one-character [c]. *)
Definition startswith (s : string) (c : ascii) : bool :=
  match s with
  | EmptyString => false
  | String a _ => Ascii.eqb a c
  end.

Fixpoint endswith (s : string) (c : ascii) : bool :=
  match s with
  | EmptyString => false
  | String a EmptyString => Ascii.eqb a c
  | String _ s' => endswith s' c
  end.

(** [s.replace(c, r)] for a one-character [c]. *)
Fixpoint replace (c : ascii) (r : string) (s : string) : string :=
  match s with
  | EmptyString => EmptyString
  | String a s' =>
      if Ascii.eqb a c then r ++ replace c r s'
      else String a (replace c r s')
  end.

(** [needle in hay]. *)
Definition contains (needle hay : string) : Prop :=
  exists pre post, hay = pre ++ needle ++ post.

(** [os.path.join] on POSIX, one component at a time. *)
Definition join2 (path b : string) : string :=
  if startswith b "/" then b
  else if negb (truthy_str path) || endswith path "/" then path ++ b
  else path ++ "/" ++ b.

Definition join (a : string) (p : list string) : string :=
  fold_left join2 p a.

(** The characters [pipes.quote] leaves alone: ASCII letters, digits and
    [@%_-+=:,./]. *)
Definition safechar (c : ascii) : bool :=
  let n := nat_of_ascii c in
  ((65 <=? n) && (n <=? 90) || (97 <=? n) && (n <=? 122)
   || (48 <=? n) && (n <=? 57))%nat
  || contains_char c "@%_-+=:,./".

Definition dquote : string := String (ascii_of_nat 34) EmptyString.

(** [pipes.quote]: a shell-escaped version of [file]. *)
Definition quote (file : string) : string :=
  if forallb safechar file then
    if negb (truthy_str file) then "''" else file
  else
    "'" ++ replace "'" ("'" ++ dquote ++ "'" ++ dquote ++ "'") file ++ "'".

End Str.

Section Downloads.

(** The module global [_DOWNLOADS_DIR], as [configure()] left it. *)
Variable _DOWNLOADS_DIR : string.

(** [os.path.exists] on the local file system. *)
Variable exists_ : string -> bool.

Definition get_downloads_dir : string := _DOWNLOADS_DIR.

Definition get_path (download_name filename : string) (test_exists : bool)
  : Outcome Exception string :=
  if Str.contains_char "/" download_name then
    Raise (AssertionError_msg ("Invalid download: " ++ download_name))
  else
    let path := Str.join get_downloads_dir [download_name; filename] in
    if test_exists && negb (exists_ path) then
      Raise (RuntimeError
        ("Missing MHCflurry downloadable file: " ++ Str.quote path ++ ". "
         ++ "To download this data, run:" ++ nl ++ tab
         ++ "mhcflurry-downloads fetch " ++ download_name ++ nl
         ++ "in a shell."))
    else
      Return path.

End Downloads.

(** ** Vocabulary of the properties *)

(** The per-worker GPU lists of the pool that was built, by worker index:
    the [gpu_device_nums] of the sets put on the argument queue. *)
Definition worker_gpu_assignments
    (r : Run (option (Pool InitFunction InitKwargs)))
  : option (list (list Z)) :=
  match snd r with
  | Return (Some pool) =>
      match pool_initializer pool with
      | EntryPoint _ kwargs_queue _ => Some (map gpu_device_nums kwargs_queue)
      | _ => None
      end
  | _ => None
  end.

(** Capacity left on GPU [k]: its entry in the dict, nothing once the
    entry is deleted. *)
Definition remaining (d : Dict.t) (k : Z) : Z :=
  match Dict.get d k with
  | Some v => v
  | None => 0
  end.

(** Whether a worker's [gpu_device_nums] holds GPU [k]. *)
Definition uses_gpu (k : Z) (kw : InitKwargs) : bool :=
  existsb (Z.eqb k) (gpu_device_nums kw).

(** In how many of the sets GPU [k] appears. *)
Definition workers_on_gpu (k : Z) (l : list InitKwargs) : Z :=
  Z.of_nat (List.length (filter (uses_gpu k) l)).

(** A worker's GPU list is empty or holds one GPU of [range(num_gpus)]. *)
Definition zero_or_one_gpu (num_gpus : Z) (kw : InitKwargs) : Prop :=
  gpu_device_nums kw = []
  \/ exists k, 0 <= k < num_gpus /\ gpu_device_nums kw = [k].

(** What holds of the dict [d] and of the list [out] built so far, before
    and after each turn of the loop over the workers. *)
Record Inv (num_gpus max_workers_per_gpu : Z)
    (d : Dict.t) (out : list InitKwargs) : Prop := mkInv {
  inv_nodup : NoDup (Dict.keys d);
  inv_dict : forall k v, Dict.get d k = Some v -> 0 <= k < num_gpus /\ 1 <= v;
  inv_count : forall k, 0 <= k < num_gpus ->
                workers_on_gpu k out + remaining d k = max_workers_per_gpu;
  inv_shape : Forall (zero_or_one_gpu num_gpus) out;
  inv_cpu : forall i kw,
              nth_error out i = Some kw -> gpu_device_nums kw = [] ->
              forall k, 0 <= k < num_gpus ->
                workers_on_gpu k (firstn i out) = max_workers_per_gpu
}.

(** The backup queue after [n] workers in turn found the argument queue
    empty and read their set from it. *)
Fixpoint backup_reads {K : Type} (n : nat) (qb : Queue.t K) : Queue.t K :=
  match n with
  | O => qb
  | S n' =>
      match Queue.get qb with
      | Some (kwargs, qb') => backup_reads n' (Queue.put qb' kwargs)
      | None => qb
      end
  end.

(** A reading of tracebacks to evaluate the wrapper on: a traceback is the
    list of the lines printed for its frames, and the formatted exception
    is the header, these lines, and the line of the exception. *)
Definition format_exception_lines
    (exc_type : string) (exc_value : Exception) (exc_tb : list string)
  : list string :=
  (("Traceback (most recent call last):" ++ nl)%string :: exc_tb)
  ++ [if truthy_str (exc_str exc_value)
      then (exc_type ++ ": " ++ exc_str exc_value ++ nl)%string
      else (exc_type ++ nl)%string].

Definition boom : Exception := mkException "ValueError" "boom".

Definition boom_tb : list string :=
  [("  File worker.py, line 3, in fit" ++ nl)%string].

Definition raises_boom : Callable (list string) unit Z :=
  fun _ => Raise (boom, boom_tb).

(** ** The rest of the two modules *)

(** *** The command line of the worker pool (parallelism.py, lines 15-58) *)

(** The attributes of the parsed arguments that
    [worker_pool_with_gpu_assignments_from_args] reads. *)
Record Args : Type := mkArgs {
  args_num_jobs : Z;
  args_backend : option string;
  args_gpus : option Z;
  args_max_workers_per_gpu : Z;
  args_max_tasks_per_worker : option Z
}.

(** The defaults [add_worker_pool_args] declares: what the parser yields
    for an option that is not given. *)
Definition add_worker_pool_args_defaults : Args :=
  {| args_num_jobs := 1;
     args_backend := None;
     args_gpus := None;
     args_max_workers_per_gpu := 1000;
     args_max_tasks_per_worker := None |}.

(** [args.gpus] is [None] when the option is not given; the callee only
    tests the truth of [num_gpus] before it reads it as a number, and
    [None] is as false as [0]. *)
Definition worker_pool_with_gpu_assignments_from_args
    (cpu_count : Z) (args : Args)
  : Run (option (Pool InitFunction InitKwargs)) :=
  worker_pool_with_gpu_assignments cpu_count
    (args_num_jobs args)
    (match args_gpus args with Some g => g | None => 0 end)
    (args_backend args)
    (args_max_workers_per_gpu args)
    (args_max_tasks_per_worker args).

(** *** [worker_init] (parallelism.py, lines 211-219) *)

(** What one worker does to its own process when it is initialized. *)
Inductive WorkerEvent : Type :=
| EvNumpySeed
| EvRandomSeed
| EvWorkerKerasBackend
    (keras_backend : option string) (gpu_device_nums : option (list Z)).

(** The body of [worker_init]; an argument that is not passed is [None]. *)
Definition worker_init_body
    (keras_backend : option string) (gpu_device_nums : option (list Z))
  : list WorkerEvent :=
  [EvNumpySeed; EvRandomSeed]
  ++ (if truthy_opt_str keras_backend
         || match gpu_device_nums with
            | Some l => truthy_list l
            | None => false
            end
      then [EvWorkerKerasBackend keras_backend gpu_device_nums]
      else []).

(** [worker_init] called with the keyword arguments of a set made by
    [worker_pool_with_gpu_assignments], which holds both keys. *)
Definition worker_init_kwargs (kwargs : InitKwargs) : list WorkerEvent :=
  worker_init_body (keras_backend kwargs) (Some (gpu_device_nums kwargs)).

(** *** Workers over time *)

(** The callbacks registered by [Finalize(None, arg_queue.put, (kwargs,),
    exitpriority=1)] run when the worker exits: each puts its set on the
    argument queue. *)
Definition run_finalizers {K : Type}
    (arg_queue : option (Queue.t K)) (finalize : list K)
  : option (Queue.t K) :=
  match arg_queue with
  | Some q => Some (fold_left Queue.put finalize q)
  | None => None
  end.

(** One worker from start to a clean exit: the two queues afterwards. *)
Definition worker_lifetime {K : Type} (empty_kwargs : K)
    (init_function : K -> Outcome Exception unit)
    (arg_queue backup_arg_queue : option (Queue.t K))
  : option (option (Queue.t K) * option (Queue.t K)) :=
  match worker_init_entry_point empty_kwargs init_function
          arg_queue backup_arg_queue with
  | Initializes q qb finalize _ _ => Some (run_finalizers q finalize, qb)
  | _ => None
  end.

(** [n] workers started one after the other, none of them exiting: the
    sets they are initialized with, in order, and the queues afterwards;
    [None] when one of them does not get to [init_function]. *)
Fixpoint start_workers {K : Type} (empty_kwargs : K)
    (init_function : K -> Outcome Exception unit) (n : nat)
    (arg_queue backup_arg_queue : option (Queue.t K))
  : option (list K * option (Queue.t K) * option (Queue.t K)) :=
  match n with
  | O => Some ([], arg_queue, backup_arg_queue)
  | S n' =>
      match worker_init_entry_point empty_kwargs init_function
              arg_queue backup_arg_queue with
      | Initializes q qb _ kwargs _ =>
          match start_workers empty_kwargs init_function n' q qb with
          | Some (l, q', qb') => Some (kwargs :: l, q', qb')
          | None => None
          end
      | _ => None
      end
  end.

(** Workers of a pool start side by side, and a set that was put on a
    [multiprocessing.Queue] reaches its pipe a little later: the
    non-blocking [get] of a worker can raise [queue.Empty] although the
    argument queue holds sets. [seen] tells whether the worker sees what
    the argument queue holds; when it does not, it goes on as on an empty
    argument queue, and the argument queue keeps its sets. *)
Definition worker_init_entry_point_seen {K : Type} (empty_kwargs : K)
    (init_function : K -> Outcome Exception unit) (seen : bool)
    (arg_queue backup_arg_queue : option (Queue.t K)) : Entry :=
  if seen then
    worker_init_entry_point empty_kwargs init_function
      arg_queue backup_arg_queue
  else
    match arg_queue with
    | Some q =>
        match worker_init_entry_point empty_kwargs init_function
                (Some []) backup_arg_queue with
        | Initializes _ qb finalize kwargs result =>
            Initializes (Some q) qb finalize kwargs result
        | Blocks => Blocks
        | Fails e => Fails e
        end
    | None =>
        worker_init_entry_point empty_kwargs init_function
          None backup_arg_queue
    end.

(** Workers started one after the other, none of them exiting, each
    seeing the argument queue or not as [seen] tells: the sets they are
    initialized with, in order, and the queues afterwards. *)
Fixpoint start_workers_seen {K : Type} (empty_kwargs : K)
    (init_function : K -> Outcome Exception unit) (seen : list bool)
    (arg_queue backup_arg_queue : option (Queue.t K))
  : option (list K * option (Queue.t K) * option (Queue.t K)) :=
  match seen with
  | [] => Some ([], arg_queue, backup_arg_queue)
  | b :: seen' =>
      match worker_init_entry_point_seen empty_kwargs init_function b
              arg_queue backup_arg_queue with
      | Initializes q qb _ kwargs _ =>
          match start_workers_seen empty_kwargs init_function seen' q qb with
          | Some (l, q', qb') => Some (kwargs :: l, q', qb')
          | None => None
          end
      | _ => None
      end
  end.

(** *** The GPU slots *)

(** The GPU lists in the order the loop hands them out: GPU 0 as many
    times as a GPU takes workers, then GPU 1, and so on. *)
Definition gpu_slots (num_gpus max_workers_per_gpu : Z) : list (list Z) :=
  flat_map (fun k => repeat [k] (Z.to_nat max_workers_per_gpu))
    (range num_gpus).

(** The first [n] slots, and the empty list for the workers beyond. *)
Definition fill_first (n : nat) (slots : list (list Z)) : list (list Z) :=
  firstn n slots ++ repeat [] (n - List.length slots).

(** Whether a worker is given a GPU. *)
Definition has_gpu (kw : InitKwargs) : bool :=
  truthy_list (gpu_device_nums kw).

(** *** Configuration of the downloads (downloads.py, lines 43-90, 123-156) *)

Section Configure.

(** One entry of the [downloads] list of a release in [downloads.yml], of
    which the code reads the key [name]. *)
Variable Download : Type.
Variable download_name_of : Download -> string.

(** A release of [downloads.yml]. *)
Record Release : Type := mkRelease {
  compatibility_version : Z;
  downloads : list Download
}.

(** The content of [downloads.yml], as [get_downloads_metadata] returns
    it. *)
Record Metadata : Type := mkMetadata {
  current_release : string;
  current_compatibility_version : Z;
  releases : list (string * Release)
}.

Variable metadata : Metadata.

(** [os.environ.get]. *)
Variable environ : string -> option string.

(** [user_data_dir("mhcflurry", version="4")]. *)
Variable user_data_dir : string.

(** [os.path.exists]. *)
Variable exists_ : string -> bool.

(** The module globals that [configure] sets, and whether it logged the
    compatibility warning. *)
Record Config : Type := mkConfig {
  cfg_DOWNLOADS_DIR : string;
  cfg_CURRENT_RELEASE : option string;
  cfg_warned : bool
}.

(** [KeyError(key)], the key being a string or [None]. *)
Inductive KeyError : Type := mkKeyError (key : option string).

(** [metadata["releases"][key]]. *)
Fixpoint lookup_release (rs : list (string * Release)) (key : string)
  : option Release :=
  match rs with
  | [] => None
  | (k, r) :: rs' => if String.eqb k key then Some r else lookup_release rs' key
  end.

(** The body of [if not _DOWNLOADS_DIR:] in [configure]. *)
Definition configure_from_release : Outcome KeyError Config :=
  let _CURRENT_RELEASE :=
    match environ "MHCFLURRY_DOWNLOADS_CURRENT_RELEASE" with
    | Some r => if truthy_str r then r else current_release metadata
    | None => current_release metadata
    end in
  match lookup_release (releases metadata) _CURRENT_RELEASE with
  | None => Raise (mkKeyError (Some _CURRENT_RELEASE))
  | Some release =>
      let warned :=
        negb (compatibility_version release
              =? current_compatibility_version metadata) in
      let data_dir :=
        match environ "MHCFLURRY_DATA_DIR" with
        | Some d => if truthy_str d then d else user_data_dir
        | None => user_data_dir
        end in
      Return (mkConfig (Str.join data_dir [_CURRENT_RELEASE])
                (Some _CURRENT_RELEASE) warned)
  end.

Definition configure : Outcome KeyError Config :=
  match environ "MHCFLURRY_DOWNLOADS_DIR" with
  | Some _DOWNLOADS_DIR =>
      if truthy_str _DOWNLOADS_DIR
      then Return (mkConfig _DOWNLOADS_DIR None false)
      else configure_from_release
  | None => configure_from_release
  end.

(** [OrderedDict(pairs)]: a key that comes again keeps its place and
    takes the later value. *)
Fixpoint od_set {V : Type} (od : list (string * V)) (k : string) (v : V)
  : list (string * V) :=
  match od with
  | [] => [(k, v)]
  | (k', v') :: od' =>
      if String.eqb k' k then (k', v) :: od' else (k', v') :: od_set od' k v
  end.

(** [get_current_release_downloads], the globals being those of [cfg]:
    for each download its [downloaded] flag and its [metadata]. *)
Definition get_current_release_downloads (cfg : Config)
  : Outcome KeyError (list (string * (bool * Download))) :=
  match cfg_CURRENT_RELEASE cfg with
  | None => Raise (mkKeyError None)
  | Some r =>
      match lookup_release (releases metadata) r with
      | None => Raise (mkKeyError (Some r))
      | Some release =>
          Return
            (fold_left
               (fun od download =>
                  od_set od (download_name_of download)
                    (exists_ (Str.join (cfg_DOWNLOADS_DIR cfg)
                                [download_name_of download]),
                     download))
               (downloads release) [])
      end
  end.

End Configure.

Arguments compatibility_version {Download} r.
Arguments downloads {Download} r.
Arguments current_release {Download} m.
Arguments current_compatibility_version {Download} m.
Arguments releases {Download} m.
Arguments mkRelease {Download} compatibility_version downloads.
Arguments mkMetadata {Download} current_release
  current_compatibility_version releases.

(** A [downloads.yml] with one release of two downloads, a download being
    known by its name alone, and three environments, to evaluate
    [configure] on. *)
Definition yml_1_2_0 : Metadata string :=
  mkMetadata "1.2.0" 2
    [("1.2.0"%string, mkRelease 2 ["models_class1"; "data_curated"]%string)].

Definition environ_unset : string -> option string := fun _ => None.

Definition environ_downloads_dir : string -> option string :=
  fun v =>
    if String.eqb v "MHCFLURRY_DOWNLOADS_DIR" then Some "/srv/mhcflurry"%string
    else None.

Definition environ_release_0_9 : string -> option string :=
  fun v =>
    if String.eqb v "MHCFLURRY_DOWNLOADS_CURRENT_RELEASE" then Some "0.9"%string
    else None.

(** * Properties *)

(** ** Building the pool *)


(** C1. For [worker_pool_with_gpu_assignments(num_jobs=5, num_gpus=2,
    max_workers_per_gpu=2)] the workers 0..4 are given the GPU lists
    [0], [0], [1], [1], [] in this order: the GPU with the least remaining
    capacity is taken first, so GPU 0 is filled before GPU 1 is used. The
    round-robin mapping [0], [1], [0], [1], [] is not what is produced. *)
Theorem worker_pool_5_jobs_2_gpus_fills_gpu_0_first :
  forall (cpu_count : Z) (backend : option string)
         (max_tasks_per_worker : option Z),
    worker_gpu_assignments
      (worker_pool_with_gpu_assignments cpu_count 5 2 backend 2
         max_tasks_per_worker)
    = Some [[0]; [0]; [1]; [1]; []]
    /\ worker_gpu_assignments
         (worker_pool_with_gpu_assignments cpu_count 5 2 backend 2
            max_tasks_per_worker)
       <> Some [[0]; [1]; [0]; [1]; []].
Proof.
  intros cpu_count backend max_tasks_per_worker.
  assert (E : worker_gpu_assignments
                (worker_pool_with_gpu_assignments cpu_count 5 2 backend 2
                   max_tasks_per_worker)
              = Some [[0]; [0]; [1]; [1]; []]).
  { destruct max_tasks_per_worker as [m|]; [destruct m|]; reflexivity. }
  split; [exact E | rewrite E; discriminate].
Qed.

(** With the default cap of the command line, a thousand workers per
    GPU, eight workers on four GPUs all go to GPU 0. *)
Example eight_workers_four_gpus_default_cap :
  worker_gpu_assignments
    (worker_pool_with_gpu_assignments 8 8 4 None 1000 None)
  = Some [[0]; [0]; [0]; [0]; [0]; [0]; [0]; [0]].
Proof. reflexivity. Qed.

(** *** [range] *)

Lemma In_range (n k : Z) : In k (range n) <-> 0 <= k < n.
Proof.
  unfold range. rewrite in_map_iff. split.
  - intros [i [<- Hi]]. apply in_seq in Hi. lia.
  - intros Hk. exists (Z.to_nat k). split; [lia|]. apply in_seq. lia.
Qed.

Lemma NoDup_range (n : Z) : NoDup (range n).
Proof.
  unfold range. apply NoDup_map_NoDup_ForallPairs.
  - intros i j _ _ Hij. lia.
  - apply seq_NoDup.
Qed.

Lemma length_range (n : Z) : 0 <= n -> Z.of_nat (List.length (range n)) = n.
Proof.
  intros Hn. unfold range. rewrite length_map, length_seq. lia.
Qed.

(** *** [sorted] *)

Section SortedFacts.
Variable key : Z -> Z.

Lemma insert_by_key_perm (x : Z) (l : list Z) :
  Permutation (x :: l) (insert_by_key key x l).
Proof.
  induction l as [|y l IH]; simpl.
  - apply Permutation_refl.
  - destruct (key x <=? key y).
    + apply Permutation_refl.
    + eapply perm_trans; [apply perm_swap|]. now apply perm_skip.
Qed.

Lemma sorted_perm (l : list Z) : Permutation l (sorted key l).
Proof.
  induction l as [|x l IH]; simpl.
  - constructor.
  - eapply perm_trans; [apply perm_skip, IH|]. apply insert_by_key_perm.
Qed.

(** The first element of the sorted keys is one of the keys. *)
Lemma sorted_hd_In (l : list Z) (dflt : Z) :
  l <> [] -> In (hd dflt (sorted key l)) l.
Proof.
  intros Hl.
  pose proof (sorted_perm l) as P.
  destruct (sorted key l) as [|y s] eqn:E.
  - apply Permutation_sym, Permutation_nil in P. contradiction.
  - simpl. eapply Permutation_in; [apply Permutation_sym, P|]. now left.
Qed.

Lemma insert_by_key_hd_min (x : Z) (l : list Z) (dflt : Z) :
  (forall y, In y l -> key (hd dflt l) <= key y) ->
  forall y, In y (insert_by_key key x l) ->
            key (hd dflt (insert_by_key key x l)) <= key y.
Proof.
  destruct l as [|z l]; simpl.
  - intros _ y [<-|[]]. lia.
  - intros H y. destruct (key x <=? key z) eqn:E; simpl.
    + apply Z.leb_le in E.
      intros [<-|Hy]; [lia|]. specialize (H y Hy). lia.
    + apply Z.leb_gt in E.
      intros [<-|Hy]; [lia|].
      eapply Permutation_in in Hy;
        [|apply Permutation_sym, insert_by_key_perm].
      destruct Hy as [<-|Hy]; [lia|]. apply H. now right.
Qed.

(** [sorted(...)[0]] has the smallest key. *)
Lemma sorted_hd_min (l : list Z) (dflt : Z) :
  forall y, In y l -> key (hd dflt (sorted key l)) <= key y.
Proof.
  induction l as [|x l IH]; simpl; [tauto|].
  intros y Hy. apply insert_by_key_hd_min.
  - intros z Hz. apply IH.
    eapply Permutation_in; [apply Permutation_sym, sorted_perm|exact Hz].
  - eapply Permutation_in; [apply insert_by_key_perm|].
    destruct Hy as [<-|Hy]; [now left|right].
    eapply Permutation_in; [apply sorted_perm|exact Hy].
Qed.
End SortedFacts.

(** *** Dictionaries *)

Module DictFacts.
Import Dict.

Lemma get_Some_In (d : t) (k v : Z) : get d k = Some v -> In k (keys d).
Proof.
  induction d as [|[k' v'] d IH]; simpl; [discriminate|].
  destruct (Z.eqb_spec k' k); auto.
Qed.

Lemma In_get_Some (d : t) (k : Z) :
  In k (keys d) -> exists v, get d k = Some v.
Proof.
  induction d as [|[k' v'] d IH]; simpl; [tauto|].
  destruct (Z.eqb_spec k' k); [eauto|].
  intros [E|H]; [contradiction|auto].
Qed.

Lemma get_None_notin (d : t) (k : Z) : ~ In k (keys d) -> get d k = None.
Proof.
  intros H. destruct (get d k) eqn:E; [|reflexivity].
  apply get_Some_In in E. contradiction.
Qed.

Lemma get_set (d : t) (k v k' : Z) :
  get (set d k v) k' = if k' =? k then Some v else get d k'.
Proof.
  induction d as [|[k0 v0] d IH]; simpl.
  - destruct (Z.eqb_spec k k'), (Z.eqb_spec k' k); congruence.
  - destruct (Z.eqb_spec k0 k); simpl.
    + destruct (Z.eqb_spec k0 k'), (Z.eqb_spec k' k); congruence.
    + rewrite IH.
      destruct (Z.eqb_spec k0 k'), (Z.eqb_spec k' k); congruence.
Qed.

Lemma keys_set (d : t) (k v : Z) :
  In k (keys d) -> keys (set d k v) = keys d.
Proof.
  induction d as [|[k0 v0] d IH]; simpl; [tauto|].
  destruct (Z.eqb_spec k0 k); simpl; [reflexivity|].
  intros [E|H]; [contradiction|]. now rewrite IH.
Qed.

Lemma set_notin (d : t) (k v : Z) :
  ~ In k (keys d) -> set d k v = d ++ [(k, v)].
Proof.
  induction d as [|[k0 v0] d IH]; simpl; [reflexivity|].
  intros H. destruct (Z.eqb_spec k0 k); [tauto|].
  rewrite IH; tauto.
Qed.

Lemma get_del_other (d : t) (k k' : Z) :
  k' <> k -> get (del d k) k' = get d k'.
Proof.
  intros Hk. induction d as [|[k0 v0] d IH]; simpl; [reflexivity|].
  destruct (Z.eqb_spec k0 k); simpl.
  - destruct (Z.eqb_spec k0 k'); congruence.
  - now rewrite IH.
Qed.

Lemma In_keys_del (d : t) (k k' : Z) :
  In k' (keys (del d k)) -> In k' (keys d).
Proof.
  induction d as [|[k0 v0] d IH]; simpl; [tauto|].
  destruct (Z.eqb_spec k0 k); simpl; tauto.
Qed.

Lemma NoDup_keys_del (d : t) (k : Z) :
  NoDup (keys d) -> NoDup (keys (del d k)).
Proof.
  induction d as [|[k0 v0] d IH]; simpl; [auto|].
  intros H. inversion H as [|? ? Hn Hd]; subst.
  destruct (Z.eqb_spec k0 k); simpl; [assumption|].
  constructor; [|auto].
  intros Hin. apply Hn. eapply In_keys_del, Hin.
Qed.

Lemma get_del_same (d : t) (k : Z) :
  NoDup (keys d) -> get (del d k) k = None.
Proof.
  induction d as [|[k0 v0] d IH]; simpl; [reflexivity|].
  intros H. inversion H as [|? ? Hn Hd]; subst.
  destruct (Z.eqb_spec k0 k); simpl.
  - subst. now apply get_None_notin.
  - destruct (Z.eqb_spec k0 k); [contradiction|auto].
Qed.

Lemma get_del (d : t) (k k' : Z) :
  NoDup (keys d) ->
  get (del d k) k' = if k' =? k then None else get d k'.
Proof.
  intros H. destruct (Z.eqb_spec k' k).
  - subst. now apply get_del_same.
  - now apply get_del_other.
Qed.

(** The dict built from distinct keys lists them in order. *)
Lemma of_keys_NoDup (ks : list Z) (v : Z) :
  NoDup ks -> of_keys ks v = map (fun k => (k, v)) ks.
Proof.
  unfold of_keys.
  enough (G : forall pre,
             NoDup (pre ++ ks) ->
             fold_left (fun d k => set d k v) ks (map (fun k => (k, v)) pre)
             = map (fun k => (k, v)) (pre ++ ks)).
  { intros H. exact (G [] H). }
  induction ks as [|k ks IH]; intros pre H; simpl.
  - now rewrite app_nil_r.
  - rewrite set_notin.
    + replace (map (fun k0 => (k0, v)) pre ++ [(k, v)])
        with (map (fun k0 => (k0, v)) (pre ++ [k]))
        by (now rewrite map_app).
      rewrite IH; rewrite <- app_assoc; [reflexivity|exact H].
    + unfold keys. rewrite map_map. simpl. rewrite map_id.
      apply NoDup_remove_2 in H. intros Hin. apply H.
      apply in_or_app. now left.
Qed.

Lemma keys_const (ks : list Z) (v : Z) :
  keys (map (fun k => (k, v)) ks) = ks.
Proof.
  unfold keys. rewrite map_map. simpl. apply map_id.
Qed.

Lemma get_const (ks : list Z) (v k : Z) :
  get (map (fun k => (k, v)) ks) k = if in_dec Z.eq_dec k ks then Some v else None.
Proof.
  induction ks as [|k0 ks IH]; simpl; [reflexivity|].
  destruct (Z.eqb_spec k0 k).
  - destruct (Z.eq_dec k0 k); [reflexivity|contradiction].
  - rewrite IH. destruct (Z.eq_dec k0 k); [contradiction|].
    destruct (in_dec Z.eq_dec k ks); reflexivity.
Qed.

End DictFacts.

(** *** The assignment loop *)


Lemma assign_gpu_empty : assign_gpu [] = ([], []).
Proof. reflexivity. Qed.

Lemma assign_gpu_nonempty (d : Dict.t) :
  d <> [] -> NoDup (Dict.keys d) ->
  exists k v d',
    assign_gpu d = (d', [k])
    /\ Dict.get d k = Some v
    /\ NoDup (Dict.keys d')
    /\ (forall k', Dict.get d' k'
                   = if k' =? k
                     then (if v - 1 =? 0 then None else Some (v - 1))
                     else Dict.get d k')
    /\ (forall k', In k' (Dict.keys d) -> v <= remaining d k').
Proof.
  intros Hd Hnd. unfold assign_gpu.
  destruct d as [|p d0]; [contradiction|]. cbn [truthy_list].
  set (d := p :: d0) in *.
  set (key := fun k => match Dict.get d k with Some v => v | None => 0 end).
  set (gpu_num := hd 0 (sorted key (Dict.keys d))).
  assert (Hin : In gpu_num (Dict.keys d)).
  { apply sorted_hd_In. discriminate. }
  destruct (DictFacts.In_get_Some _ _ Hin) as [v Hv].
  assert (Hkey : key gpu_num = v) by (unfold key; now rewrite Hv).
  assert (Hmin : forall k', In k' (Dict.keys d) -> v <= remaining d k').
  { intros k' Hk'. rewrite <- Hkey.
    exact (sorted_hd_min key (Dict.keys d) 0 k' Hk'). }
  rewrite Hv.
  exists gpu_num, v.
  rewrite DictFacts.get_set, Z.eqb_refl.
  unfold truthy_int.
  destruct (Z.eqb_spec (v - 1) 0) as [E|E]; cbn [negb].
  - eexists. split; [reflexivity|]. split; [exact Hv|]. split; [|split].
    + apply DictFacts.NoDup_keys_del. now rewrite DictFacts.keys_set.
    + intros k'. rewrite DictFacts.get_del
        by (now rewrite DictFacts.keys_set).
      rewrite DictFacts.get_set.
      destruct (k' =? gpu_num); reflexivity.
    + exact Hmin.
  - eexists. split; [reflexivity|]. split; [exact Hv|]. split; [|split].
    + now rewrite DictFacts.keys_set.
    + intros k'. rewrite DictFacts.get_set.
      destruct (k' =? gpu_num); reflexivity.
    + exact Hmin.
Qed.

Lemma workers_on_gpu_app (k : Z) (l : list InitKwargs) (kw : InitKwargs) :
  workers_on_gpu k (l ++ [kw])
  = workers_on_gpu k l + (if uses_gpu k kw then 1 else 0).
Proof.
  unfold workers_on_gpu. rewrite filter_app, length_app. simpl.
  destruct (uses_gpu k kw); simpl; lia.
Qed.

Lemma assign_workers_length (workers : list Z) (backend : option string) :
  forall d acc,
    List.length (snd (assign_workers workers backend d acc))
    = (List.length acc + List.length workers)%nat.
Proof.
  induction workers as [|w ws IH]; intros d acc; simpl.
  - lia.
  - destruct (assign_gpu d) as [d' a]. rewrite IH, length_app. simpl. lia.
Qed.

Section LoopInvariant.

Variables num_gpus max_workers_per_gpu : Z.
Hypothesis cap_pos : 1 <= max_workers_per_gpu.


Lemma Inv_init :
  Inv num_gpus max_workers_per_gpu (Dict.of_keys (range num_gpus) max_workers_per_gpu) [].
Proof.
  rewrite DictFacts.of_keys_NoDup by apply NoDup_range.
  constructor.
  - rewrite DictFacts.keys_const. apply NoDup_range.
  - intros k v. rewrite DictFacts.get_const.
    destruct (in_dec Z.eq_dec k (range num_gpus)) as [Hin|]; [|discriminate].
    intros [= <-]. apply In_range in Hin. lia.
  - intros k Hk. unfold remaining. rewrite DictFacts.get_const.
    destruct (in_dec Z.eq_dec k (range num_gpus)) as [|Hn].
    + reflexivity.
    + exfalso. apply Hn, In_range, Hk.
  - constructor.
  - intros i kw H. destruct i; discriminate.
Qed.

Lemma nth_error_snoc (out : list InitKwargs) (x kw : InitKwargs) (i : nat) :
  nth_error (out ++ [x]) i = Some kw ->
  (nth_error out i = Some kw /\ firstn i (out ++ [x]) = firstn i out)
  \/ (i = List.length out /\ kw = x /\ firstn i (out ++ [x]) = out).
Proof.
  intros H. destruct (Nat.lt_ge_cases i (List.length out)) as [Hlt|Hge].
  - left. rewrite nth_error_app1 in H by assumption. split; [assumption|].
    rewrite firstn_app.
    replace (i - List.length out)%nat with 0%nat by lia.
    simpl. now rewrite app_nil_r.
  - right. rewrite nth_error_app2 in H by assumption.
    destruct (i - List.length out)%nat as [|j] eqn:E; simpl in H.
    + assert (i = List.length out) by lia. subst i.
      injection H as <-. repeat split.
      rewrite firstn_app, firstn_all, Nat.sub_diag. simpl.
      now rewrite app_nil_r.
    + destruct j; discriminate.
Qed.

Lemma Inv_step (d : Dict.t) (out : list InitKwargs)
    (backend : option string) :
  Inv num_gpus max_workers_per_gpu d out ->
  Inv num_gpus max_workers_per_gpu (fst (assign_gpu d))
      (out ++ [mkInitKwargs (snd (assign_gpu d)) backend]).
Proof.
  intros [Hnd Hdict Hcount Hshape Hcpu].
  destruct d as [|p d0] eqn:Ed.
  - (* no GPU left: the worker runs on CPU *)
    rewrite assign_gpu_empty. simpl fst. simpl snd.
    constructor; auto.
    + intros k Hk. rewrite workers_on_gpu_app. simpl.
      specialize (Hcount k Hk). lia.
    + apply Forall_app. split; [assumption|].
      constructor; [now left|constructor].
    + intros i kw Hi Hkw k Hk.
      apply nth_error_snoc in Hi.
      destruct Hi as [[Hi ->]|[-> [-> ->]]].
      * eapply Hcpu; eauto.
      * specialize (Hcount k Hk). unfold remaining in Hcount.
        simpl in Hcount. lia.
  - (* a GPU is taken *)
    rewrite <- Ed in *.
    destruct (assign_gpu_nonempty d) as (g & v & d' & E & Hv & Hnd' & Hget & _);
      [subst; discriminate|assumption|].
    rewrite E. simpl fst. simpl snd.
    destruct (Hdict g v Hv) as [Hg Hv1].
    constructor.
    + assumption.
    + intros k w. rewrite Hget.
      destruct (Z.eqb_spec k g) as [->|Hk].
      * destruct (Z.eqb_spec (v - 1) 0); [discriminate|].
        intros [= <-]. lia.
      * apply Hdict.
    + intros k Hk. rewrite workers_on_gpu_app.
      unfold uses_gpu, remaining. simpl. rewrite Hget.
      specialize (Hcount k Hk). unfold remaining in Hcount.
      destruct (Z.eqb_spec k g) as [->|Hkg].
      * rewrite Hv in Hcount. simpl.
        destruct (Z.eqb_spec (v - 1) 0); lia.
      * simpl. lia.
    + apply Forall_app. split; [assumption|].
      constructor; [|constructor]. right. exists g. now split.
    + intros i kw Hi Hkw k Hk.
      apply nth_error_snoc in Hi.
      destruct Hi as [[Hi ->]|[-> [-> ->]]].
      * eapply Hcpu; eauto.
      * discriminate.
Qed.

Lemma Inv_loop (workers : list Z) (backend : option string) :
  forall d out,
    Inv num_gpus max_workers_per_gpu d out ->
    Inv num_gpus max_workers_per_gpu
        (fst (assign_workers workers backend d out))
        (snd (assign_workers workers backend d out)).
Proof.
  induction workers as [|w ws IH]; intros d out H; simpl.
  - exact H.
  - pose proof (Inv_step d out backend H) as Hs.
    destruct (assign_gpu d) as [d' a]. apply IH. exact Hs.
Qed.

(** A GPU outside [range(num_gpus)] is never assigned. *)
Lemma workers_on_gpu_outside (out : list InitKwargs) (k : Z) :
  Forall (zero_or_one_gpu num_gpus) out ->
  ~ (0 <= k < num_gpus) -> workers_on_gpu k out = 0.
Proof.
  intros Hs Hk. unfold workers_on_gpu.
  induction Hs as [|kw l Hkw _ IH]; [reflexivity|]. simpl.
  assert (E : uses_gpu k kw = false).
  { unfold uses_gpu. destruct Hkw as [->|[g [Hg ->]]]; [reflexivity|].
    simpl. destruct (Z.eqb_spec k g); [subst; contradiction|reflexivity]. }
  now rewrite E.
Qed.

Lemma Inv_cap (d : Dict.t) (out : list InitKwargs) (k : Z) :
  Inv num_gpus max_workers_per_gpu d out -> workers_on_gpu k out <= max_workers_per_gpu.
Proof.
  intros H.
  destruct (Z.le_gt_cases 0 k) as [H0|H0];
    [destruct (Z.lt_ge_cases k num_gpus) as [H1|H1]|].
  - pose proof (inv_count _ _ _ _ H k (conj H0 H1)) as Hc.
    assert (0 <= remaining d k); [|lia].
    unfold remaining. destruct (Dict.get d k) as [v|] eqn:E; [|lia].
    apply (inv_dict _ _ _ _ H) in E. lia.
  - rewrite (workers_on_gpu_outside out k (inv_shape _ _ _ _ H)); lia.
  - rewrite (workers_on_gpu_outside out k (inv_shape _ _ _ _ H)); lia.
Qed.

End LoopInvariant.

(** *** [make_worker_pool] *)

Section PoolFacts.

Variable cpu_count : Z.
Context {F K : Type}.

(** Both queues receive the sets in the order of the list. *)
Lemma queues_filled (l : list K) :
  forall q qb : Queue.t K,
    fold_left
      (fun '(q, qb) kwargs => (Queue.put q kwargs, Queue.put qb kwargs))
      l (q, qb)
    = (q ++ l, qb ++ l).
Proof.
  induction l as [|x l IH]; intros q qb; simpl.
  - now rewrite !app_nil_r.
  - rewrite IH. unfold Queue.put. now rewrite <- !app_assoc.
Qed.

Lemma make_pool_initializer_queues (processes : Z) (f : F) (l : list K) :
  l <> [] -> Z.of_nat (List.length l) = processes ->
  make_pool_initializer processes (Some f) (Some l)
  = ([], Return (EntryPoint f l l)).
Proof.
  intros Hl Hlen. unfold make_pool_initializer.
  destruct l as [|x l]; [contradiction|].
  rewrite Hlen, Z.eqb_refl. unfold assert, bind, ret.
  rewrite queues_filled. reflexivity.
Qed.

Lemma make_pool_initializer_mismatch (processes : Z) (f : F) (l : list K) :
  l <> [] -> Z.of_nat (List.length l) <> processes ->
  make_pool_initializer processes (Some f) (Some l)
  = ([], Raise AssertionError).
Proof.
  intros Hl Hlen. unfold make_pool_initializer.
  destruct l as [|x l]; [contradiction|].
  apply Z.eqb_neq in Hlen. rewrite Hlen. reflexivity.
Qed.

Lemma make_worker_pool_queues (processes : Z) (f : F) (l : list K)
    (max_tasks_per_worker : option Z) :
  processes <> 0 -> l <> [] -> Z.of_nat (List.length l) = processes ->
  make_worker_pool cpu_count (Some processes) (Some f) (Some l)
    max_tasks_per_worker
  = ([EvPool processes],
     Return (mkPool processes
               (if truthy_opt_int max_tasks_per_worker
                then max_tasks_per_worker else None)
               (EntryPoint f l l))).
Proof.
  intros Hp Hl Hlen. unfold make_worker_pool, truthy_int.
  apply Z.eqb_neq in Hp. rewrite Hp. cbn [negb].
  rewrite make_pool_initializer_queues by assumption. reflexivity.
Qed.

Lemma make_worker_pool_no_kwargs (processes : Z) (f : F)
    (max_tasks_per_worker : option Z) :
  processes <> 0 ->
  make_worker_pool cpu_count (Some processes) (Some f) (@None (list K))
    max_tasks_per_worker
  = ([EvPool processes],
     Return (mkPool processes
               (if truthy_opt_int max_tasks_per_worker
                then max_tasks_per_worker else None)
               (Initializer f))).
Proof.
  intros Hp. unfold make_worker_pool, truthy_int.
  apply Z.eqb_neq in Hp. rewrite Hp. reflexivity.
Qed.

End PoolFacts.

(** C2. For every number of processes [P >= 1] and every non-empty list
    of initializer kwargs whose length differs from [P],
    [make_worker_pool] with an initializer fails its assertion
    ([AssertionError]) and has made no call before, so no pool was
    constructed. *)
Theorem make_worker_pool_length_mismatch :
  forall (cpu_count : Z) (F K : Type) (processes : Z) (initializer : F)
         (initializer_kwargs_per_process : list K)
         (max_tasks_per_worker : option Z),
    1 <= processes ->
    initializer_kwargs_per_process <> [] ->
    Z.of_nat (List.length initializer_kwargs_per_process) <> processes ->
    make_worker_pool cpu_count (Some processes) (Some initializer)
      (Some initializer_kwargs_per_process) max_tasks_per_worker
    = ([], Raise AssertionError).
Proof.
  intros cpu_count F K processes f l mt Hp Hl Hlen.
  unfold make_worker_pool, truthy_int.
  assert (E : (processes =? 0) = false) by (apply Z.eqb_neq; lia).
  rewrite E. cbn [negb].
  rewrite make_pool_initializer_mismatch by assumption. reflexivity.
Qed.

(** The scenario of three processes and two sets of kwargs. *)
Lemma make_worker_pool_length_mismatch_witness :
  make_worker_pool 8 (Some 3) (Some worker_init)
    (Some [mkInitKwargs [0] None; mkInitKwargs [1] None]) None
  = ([], Raise AssertionError).
Proof.
  apply (make_worker_pool_length_mismatch 8 InitFunction InitKwargs 3
           worker_init [mkInitKwargs [0] None; mkInitKwargs [1] None] None).
  - lia.
  - discriminate.
  - simpl. lia.
Defined.

(** An empty list of kwargs is a list whose length differs from the three
    processes asked for; the pool is built all the same, with the plain
    initializer. *)
Lemma make_worker_pool_empty_kwargs_builds_pool :
  1 <= 3
  /\ Z.of_nat (List.length (@nil InitKwargs)) <> 3
  /\ make_worker_pool 8 (Some 3) (Some worker_init)
       (Some (@nil InitKwargs)) None
     = ([EvPool 3], Return (mkPool 3 None (Initializer worker_init))).
Proof.
  split; [lia|]. split; [simpl; lia|reflexivity].
Qed.

(** What the pool runs in its workers, when the length assertion holds
    wherever it is made. *)
Lemma make_pool_initializer_returns {F K : Type} (num_processes : Z)
    (initializer : option F)
    (initializer_kwargs_per_process : option (list K)) :
  (forall f l,
     initializer = Some f -> initializer_kwargs_per_process = Some l ->
     l <> [] -> Z.of_nat (List.length l) = num_processes) ->
  exists init,
    make_pool_initializer num_processes initializer
      initializer_kwargs_per_process
    = ([], Return init).
Proof.
  intros H. destruct initializer as [f|]; [|eexists; reflexivity].
  destruct initializer_kwargs_per_process as [[|x l]|];
    [eexists; reflexivity| |eexists; reflexivity].
  eexists. apply make_pool_initializer_queues; [discriminate|].
  apply (H f (x :: l)); [reflexivity|reflexivity|discriminate].
Qed.

(** C9. [make_worker_pool] with [max_tasks_per_worker=0] builds a pool,
    the same pool as with [max_tasks_per_worker=None] and with no
    [maxtasksperchild], where a [max_tasks_per_worker] other than zero
    builds that pool with [maxtasksperchild] set to it. This is for a
    number of processes, [cpu_count()] when [processes] is left out or
    zero, of at least one, and for per-process kwargs that, where their
    number is checked, are as many as the processes. *)
Theorem make_worker_pool_zero_max_tasks :
  forall (cpu_count : Z) (F K : Type) (processes_arg : option Z)
         (initializer : option F)
         (initializer_kwargs_per_process : option (list K))
         (num_processes : Z),
    num_processes
    = match processes_arg with
      | Some p => if p =? 0 then cpu_count else p
      | None => cpu_count
      end ->
    1 <= num_processes ->
    (forall f l,
       initializer = Some f -> initializer_kwargs_per_process = Some l ->
       l <> [] -> Z.of_nat (List.length l) = num_processes) ->
    exists init,
      make_worker_pool cpu_count processes_arg initializer
        initializer_kwargs_per_process (Some 0)
      = ([EvPool num_processes], Return (mkPool num_processes None init))
      /\ make_worker_pool cpu_count processes_arg initializer
           initializer_kwargs_per_process None
         = ([EvPool num_processes], Return (mkPool num_processes None init))
      /\ forall n,
           n <> 0 ->
           make_worker_pool cpu_count processes_arg initializer
             initializer_kwargs_per_process (Some n)
           = ([EvPool num_processes],
              Return (mkPool num_processes (Some n) init)).
Proof.
  intros cpu_count F K processes_arg initializer kwargs num_processes
    Hnum Hpos Hlen.
  destruct (make_pool_initializer_returns num_processes initializer kwargs
              Hlen) as [init Hinit].
  exists init.
  assert (G : forall mt,
            make_worker_pool cpu_count processes_arg initializer kwargs mt
            = ([EvPool num_processes],
               Return (mkPool num_processes
                         (if truthy_opt_int mt then mt else None) init))).
  { intros mt. unfold make_worker_pool, truthy_int.
    replace (match processes_arg with
             | Some p => if negb (p =? 0) then p else cpu_count
             | None => cpu_count
             end) with num_processes
      by (rewrite Hnum; destruct processes_arg as [p|];
          [destruct (p =? 0)|]; reflexivity).
    rewrite Hinit. reflexivity. }
  split; [apply (G (Some 0))|]. split; [apply (G None)|].
  intros n Hn. rewrite G. cbn [truthy_opt_int]. unfold truthy_int.
  apply Z.eqb_neq in Hn. now rewrite Hn.
Qed.

(** Three processes, each with its set, and [max_tasks_per_worker=0]. *)
Lemma make_worker_pool_zero_max_tasks_witness :
  exists init,
    make_worker_pool 8 (Some 3) (Some worker_init)
      (Some [mkInitKwargs [0] None; mkInitKwargs [1] None;
             mkInitKwargs [] None]) (Some 0)
    = ([EvPool 3], Return (mkPool 3 None init))
    /\ make_worker_pool 8 (Some 3) (Some worker_init)
         (Some [mkInitKwargs [0] None; mkInitKwargs [1] None;
                mkInitKwargs [] None]) None
       = ([EvPool 3], Return (mkPool 3 None init))
    /\ forall n,
         n <> 0 ->
         make_worker_pool 8 (Some 3) (Some worker_init)
           (Some [mkInitKwargs [0] None; mkInitKwargs [1] None;
                  mkInitKwargs [] None]) (Some n)
         = ([EvPool 3], Return (mkPool 3 (Some n) init)).
Proof.
  apply (make_worker_pool_zero_max_tasks 8 InitFunction InitKwargs (Some 3)
           (Some worker_init)
           (Some [mkInitKwargs [0] None; mkInitKwargs [1] None;
                  mkInitKwargs [] None]) 3).
  - reflexivity.
  - lia.
  - intros f l _ [= <-] _. reflexivity.
Defined.

(** *** [worker_pool_with_gpu_assignments] *)

(** With some GPUs asked for, the plan has one entry per worker. *)
Lemma plan_worker_init_kwargs_length
    (num_workers num_gpus : Z) (backend : option string)
    (max_workers_per_gpu : Z) :
  0 <= num_workers -> num_gpus <> 0 ->
  exists plan,
    plan_worker_init_kwargs num_workers num_gpus backend max_workers_per_gpu
    = Some plan
    /\ Z.of_nat (List.length plan) = num_workers.
Proof.
  intros Hw Hg. unfold plan_worker_init_kwargs, truthy_int.
  apply Z.eqb_neq in Hg. rewrite Hg. cbn [negb].
  eexists. split; [reflexivity|].
  rewrite assign_workers_length. simpl. now apply length_range.
Qed.

Lemma plan_worker_init_kwargs_no_gpus
    (num_workers : Z) (backend : option string) (max_workers_per_gpu : Z) :
  plan_worker_init_kwargs num_workers 0 backend max_workers_per_gpu = None.
Proof. reflexivity. Qed.

Lemma nonempty_of_length {A : Type} (l : list A) (n : Z) :
  1 <= n -> Z.of_nat (List.length l) = n -> l <> [].
Proof. intros Hn Hl ->. simpl in Hl. lia. Qed.

(** C3. With [num_jobs=0] the number of workers becomes [cpu_count()],
    which is at least one on any machine: whatever the other arguments are,
    [worker_pool_with_gpu_assignments] then starts a pool of [cpu_count()]
    processes and returns it, not [None]. *)
Theorem worker_pool_zero_jobs_starts_cpu_count_workers :
  forall (cpu_count num_gpus : Z) (backend : option string)
         (max_workers_per_gpu : Z) (max_tasks_per_worker : option Z),
    1 <= cpu_count ->
    exists pool,
      worker_pool_with_gpu_assignments cpu_count 0 num_gpus backend
        max_workers_per_gpu max_tasks_per_worker
      = ([EvPool cpu_count], Return (Some pool))
      /\ processes pool = cpu_count.
Proof.
  intros cpu_count num_gpus backend m mt Hcpu.
  unfold worker_pool_with_gpu_assignments. cbn [truthy_int Z.eqb negb].
  assert (E : (cpu_count =? 0) = false) by (apply Z.eqb_neq; lia).
  rewrite E.
  destruct (Z.eq_dec num_gpus 0) as [->|Hg].
  - rewrite plan_worker_init_kwargs_no_gpus.
    rewrite make_worker_pool_no_kwargs by lia.
    eexists. split; reflexivity.
  - destruct (plan_worker_init_kwargs_length cpu_count num_gpus backend m)
      as [plan [-> Hlen]]; [lia|assumption|].
    rewrite make_worker_pool_queues;
      [|lia|now apply (nonempty_of_length plan cpu_count)|assumption].
    eexists. split; reflexivity.
Qed.

(** On a machine with four CPUs, [num_jobs=0] and the defaults for the
    rest. *)
Lemma worker_pool_zero_jobs_starts_cpu_count_workers_witness :
  exists pool,
    worker_pool_with_gpu_assignments 4 0 0 None 1 None
    = ([EvPool 4], Return (Some pool))
    /\ processes pool = 4.
Proof.
  apply (worker_pool_zero_jobs_starts_cpu_count_workers 4 0 None 1 None).
  lia.
Defined.

(** C4. For [num_jobs >= 1], [num_gpus >= 1] and
    [max_workers_per_gpu >= 1], [worker_pool_with_gpu_assignments] starts
    a pool of [num_jobs] processes whose two argument queues hold the same
    list of [num_jobs] sets, one per worker index; each set names no GPU or
    one GPU of [range(num_gpus)]; no GPU is named by more than
    [max_workers_per_gpu] sets; and when the set of a worker names no GPU,
    every GPU is already named by [max_workers_per_gpu] sets of earlier
    workers. *)
Theorem gpu_assignments_within_capacity :
  forall (cpu_count num_jobs num_gpus : Z) (backend : option string)
         (max_workers_per_gpu : Z) (max_tasks_per_worker : option Z),
    1 <= num_jobs -> 1 <= num_gpus -> 1 <= max_workers_per_gpu ->
    exists pool plan,
      worker_pool_with_gpu_assignments cpu_count num_jobs num_gpus backend
        max_workers_per_gpu max_tasks_per_worker
      = ([EvPool num_jobs], Return (Some pool))
      /\ pool_initializer pool = EntryPoint worker_init plan plan
      /\ Z.of_nat (List.length plan) = num_jobs
      /\ Forall (zero_or_one_gpu num_gpus) plan
      /\ (forall k, workers_on_gpu k plan <= max_workers_per_gpu)
      /\ (forall i kw,
            nth_error plan i = Some kw -> gpu_device_nums kw = [] ->
            forall k, 0 <= k < num_gpus ->
              workers_on_gpu k (firstn i plan) = max_workers_per_gpu).
Proof.
  intros cpu_count num_jobs num_gpus backend m mt Hj Hg Hm.
  unfold worker_pool_with_gpu_assignments, truthy_int.
  assert (E : (num_jobs =? 0) = false) by (apply Z.eqb_neq; lia).
  rewrite E. cbn [negb]. rewrite E.
  destruct (plan_worker_init_kwargs_length num_jobs num_gpus backend m)
    as [plan [Eplan Hlen]]; [lia|lia|].
  rewrite Eplan.
  rewrite make_worker_pool_queues;
    [|lia|now apply (nonempty_of_length plan num_jobs)|assumption].
  eexists. exists plan. split; [reflexivity|]. split; [reflexivity|].
  split; [assumption|].
  unfold plan_worker_init_kwargs, truthy_int in Eplan.
  assert (Eg : (num_gpus =? 0) = false) by (apply Z.eqb_neq; lia).
  rewrite Eg in Eplan. cbn [negb] in Eplan. injection Eplan as <-.
  match goal with
  | |- context [assign_workers ?ws ?b ?d ?acc] =>
      pose proof (Inv_loop num_gpus m ws b d acc (Inv_init num_gpus m Hm))
        as HI
  end.
  split; [exact (inv_shape _ _ _ _ HI)|].
  split; [intros k; exact (Inv_cap num_gpus m Hm _ _ k HI)|].
  exact (inv_cpu _ _ _ _ HI).
Qed.

(** Five workers on two GPUs that take two workers each. *)
Lemma gpu_assignments_within_capacity_witness :
  exists pool plan,
    worker_pool_with_gpu_assignments 8 5 2 None 2 None
    = ([EvPool 5], Return (Some pool))
    /\ pool_initializer pool = EntryPoint worker_init plan plan
    /\ Z.of_nat (List.length plan) = 5
    /\ Forall (zero_or_one_gpu 2) plan
    /\ (forall k, workers_on_gpu k plan <= 2)
    /\ (forall i kw,
          nth_error plan i = Some kw -> gpu_device_nums kw = [] ->
          forall k, 0 <= k < 2 ->
            workers_on_gpu k (firstn i plan) = 2).
Proof.
  apply (gpu_assignments_within_capacity 8 5 2 None 2 None); lia.
Defined.

(** With [num_gpus=0] no list of per-worker sets is produced: the three
    workers are started with the plain initializer and no argument queue. *)
Lemma no_gpus_no_init_kwargs :
  plan_worker_init_kwargs 3 0 None 1 = None
  /\ worker_pool_with_gpu_assignments 8 3 0 None 1 None
     = ([EvPool 3], Return (Some (mkPool 3 None (Initializer worker_init)))).
Proof. split; reflexivity. Qed.

(** ** The pool entry point *)

(** C7. When the argument queue is found empty, the worker takes the
    oldest set of the backup queue and puts it back at the end: it is
    initialized with that set, the backup queue holds the same sets as
    before and as many of them, and the argument queue is still empty. *)
Theorem entry_point_backup_queue_keeps_its_sets :
  forall (K : Type) (empty_kwargs : K)
         (init_function : K -> Outcome Exception unit)
         (kwargs : K) (rest : Queue.t K),
    worker_init_entry_point empty_kwargs init_function
      (Some []) (Some (kwargs :: rest))
    = Initializes (Some []) (Some (rest ++ [kwargs])) [kwargs] kwargs
        (init_function kwargs)
    /\ List.length (rest ++ [kwargs]) = List.length (kwargs :: rest)
    /\ Permutation (kwargs :: rest) (rest ++ [kwargs]).
Proof.
  intros K empty_kwargs init_function kwargs rest.
  split; [reflexivity|]. split.
  - rewrite length_app. simpl. lia.
  - apply Permutation_cons_append.
Qed.


Lemma backup_reads_length {K : Type} (n : nat) :
  forall qb : Queue.t K,
    List.length (backup_reads n qb) = List.length qb.
Proof.
  induction n as [|n IH]; intros qb; simpl; [reflexivity|].
  destruct qb as [|x qb]; simpl; [reflexivity|].
  rewrite IH. unfold Queue.put. rewrite length_app. simpl. lia.
Qed.

(** ** Exceptions that keep their traceback *)

(** C5. The string of the wrapper built in the handler of an exception
    [e] with traceback [tb] is an empty first line, the line
    [Original traceback:], and then the formatted traceback of [e]: the
    string of [e] is not put in front. *)
Theorem WrapException_str_is_header_then_traceback :
  forall (Traceback : Type)
         (format_exception : string -> Exception -> Traceback -> list string)
         (e : Exception) (tb : Traceback),
    let w := WrapException__init__ Traceback format_exception e tb in
    WrapException__str__ w
    = (nl ++ "Original traceback:" ++ nl ++ formatted w)%string
    /\ formatted w
       = String.concat "" (format_exception (exc_type e) e tb).
Proof. intros. split; reflexivity. Qed.

Lemma length_append (a b : string) :
  String.length (a ++ b) = (String.length a + String.length b)%nat.
Proof.
  induction a as [|x a IH]; simpl; [reflexivity|]. now rewrite IH.
Qed.

Lemma append_cancel_r (a b c : string) :
  (a ++ c = b ++ c)%string -> a = b.
Proof.
  revert b. induction a as [|x a IH]; intros [|y b] H; simpl in H.
  - reflexivity.
  - apply (f_equal String.length) in H. simpl in H.
    rewrite length_append in H. lia.
  - apply (f_equal String.length) in H. simpl in H.
    rewrite length_append in H. lia.
  - injection H as -> H. f_equal. now apply IH.
Qed.

(** The string of the wrapper starts with the string of the exception
    only for an exception whose string is the header itself. *)
Lemma WrapException_str_message_first_only_for_header
    (Traceback : Type)
    (format_exception : string -> Exception -> Traceback -> list string)
    (e : Exception) (tb : Traceback) :
  let w := WrapException__init__ Traceback format_exception e tb in
  WrapException__str__ w = (exc_str e ++ formatted w)%string ->
  exc_str e = (nl ++ "Original traceback:" ++ nl)%string.
Proof.
  intros w H. unfold WrapException__str__, Exception__str__ in H.
  symmetry. apply (append_cancel_r _ _ (formatted w)).
  rewrite <- H. simpl. reflexivity.
Qed.

(** C6. [call_wrapped] returns what the function returns; and when the
    function raises [e] with traceback [tb], it raises a wrapper whose
    [exception] is [e] and whose [formatted] is the formatted traceback of
    [e] at [tb], which is not empty, [traceback.format_exception] never
    giving an empty text. *)
Theorem call_wrapped_returns_or_wraps :
  forall (Traceback : Type)
         (format_exception : string -> Exception -> Traceback -> list string),
    (forall t v tb, String.concat "" (format_exception t v tb) <> ""%string) ->
    forall (X A : Type) (function : Callable Traceback X A) (args : X),
      match function args with
      | Return a =>
          call_wrapped Traceback format_exception function args = Return a
      | Raise (e, tb) =>
          exists w,
            call_wrapped Traceback format_exception function args = Raise w
            /\ exception w = e
            /\ formatted w
               = String.concat "" (format_exception (exc_type e) e tb)
            /\ formatted w <> ""%string
      end.
Proof.
  intros Traceback format_exception Hfmt X A function args.
  unfold call_wrapped.
  destruct (function args) as [a|[e tb]]; [reflexivity|].
  eexists. split; [reflexivity|]. split; [reflexivity|].
  split; [reflexivity|]. apply Hfmt.
Qed.


Lemma format_exception_lines_nonempty :
  forall t v tb,
    String.concat "" (format_exception_lines t v tb) <> ""%string.
Proof.
  intros t v tb. unfold format_exception_lines. simpl.
  destruct (tb ++ _); discriminate.
Qed.

(** For [ValueError("boom")] the string of the wrapper is not ["boom"]
    followed by the formatted traceback. *)
Lemma WrapException_str_is_not_message_then_traceback :
  let w := WrapException__init__ (list string) format_exception_lines
             boom boom_tb in
  WrapException__str__ w <> (exc_str boom ++ formatted w)%string.
Proof. vm_compute. discriminate. Qed.

Lemma call_wrapped_returns_or_wraps_witness :
  exists w,
    call_wrapped (list string) format_exception_lines raises_boom tt = Raise w
    /\ exception w = boom
    /\ formatted w
       = String.concat ""
           (format_exception_lines (exc_type boom) boom boom_tb)
    /\ formatted w <> ""%string.
Proof.
  exact (call_wrapped_returns_or_wraps (list string) format_exception_lines
           format_exception_lines_nonempty unit Z raises_boom tt).
Defined.

(** ** The downloads resolver *)

Lemma append_assoc (a b c : string) :
  ((a ++ b) ++ c = a ++ (b ++ c))%string.
Proof.
  induction a as [|x a IH]; simpl; [reflexivity|]. now rewrite IH.
Qed.

(** C8. For a [download_name] without ['/'] and any [filename], when
    nothing exists at the joined path and [test_exists] is true, [get_path]
    raises the missing-download error, a [RuntimeError] whose message holds
    the command [mhcflurry-downloads fetch <download_name>]. *)
Theorem get_path_missing_tells_fetch_command :
  forall (downloads_dir : string) (exists_ : string -> bool)
         (download_name filename : string),
    Str.contains_char "/" download_name = false ->
    exists_ (Str.join downloads_dir [download_name; filename]) = false ->
    exists msg,
      get_path downloads_dir exists_ download_name filename true
      = Raise (RuntimeError msg)
      /\ Str.contains ("mhcflurry-downloads fetch " ++ download_name) msg.
Proof.
  intros downloads_dir exists_ download_name filename Hname Hmissing.
  unfold get_path, get_downloads_dir. rewrite Hname, Hmissing. simpl andb.
  cbv iota. eexists. split; [reflexivity|].
  exists ("Missing MHCflurry downloadable file: "
          ++ Str.quote (Str.join downloads_dir [download_name; filename])
          ++ ". To download this data, run:" ++ nl ++ tab)%string,
         (nl ++ "in a shell.")%string.
  rewrite !append_assoc. reflexivity.
Qed.

Lemma get_path_missing_tells_fetch_command_witness :
  exists msg,
    get_path "/data/mhcflurry/4/1.2.0" (fun _ => false)
      "data_curated" "curated_training_data.csv.bz2" true
    = Raise (RuntimeError msg)
    /\ Str.contains ("mhcflurry-downloads fetch " ++ "data_curated") msg.
Proof.
  apply (get_path_missing_tells_fetch_command
           "/data/mhcflurry/4/1.2.0" (fun _ => false)
           "data_curated" "curated_training_data.csv.bz2");
    reflexivity.
Defined.

(** C10. For a [download_name] without ['/'] and any [filename],
    [get_path] with [test_exists=False] returns the path joined from the
    downloads directory, the download name and the file name, whether or
    not anything exists there. *)
Theorem get_path_unchecked_returns_joined_path :
  forall (downloads_dir : string) (exists_ : string -> bool)
         (download_name filename : string),
    Str.contains_char "/" download_name = false ->
    get_path downloads_dir exists_ download_name filename false
    = Return (Str.join downloads_dir [download_name; filename]).
Proof.
  intros downloads_dir exists_ download_name filename Hname.
  unfold get_path. now rewrite Hname.
Qed.

Lemma get_path_unchecked_returns_joined_path_witness :
  get_path "/data/mhcflurry/4/1.2.0" (fun _ => false)
    "data_curated" "curated_training_data.csv.bz2" false
  = Return "/data/mhcflurry/4/1.2.0/data_curated/curated_training_data.csv.bz2"%string.
Proof.
  apply (get_path_unchecked_returns_joined_path
           "/data/mhcflurry/4/1.2.0" (fun _ => false)
           "data_curated" "curated_training_data.csv.bz2").
  reflexivity.
Defined.

(** * Further properties *)

(** ** The order in which GPUs are handed out *)

(** With no GPU left, all the workers that remain run on CPU. *)
Lemma assign_workers_no_gpu_left (workers : list Z) (backend : option string) :
  forall acc,
    assign_workers workers backend [] acc
    = ([], acc ++ repeat (mkInitKwargs [] backend) (List.length workers)).
Proof.
  induction workers as [|w ws IH]; intros acc; simpl.
  - now rewrite app_nil_r.
  - rewrite IH, <- app_assoc. reflexivity.
Qed.

(** A first key whose value is not above the others stays first. *)
Lemma sorted_hd_first (key : Z -> Z) (x : Z) (l : list Z) (dflt : Z) :
  (forall y, In y l -> key x <= key y) ->
  hd dflt (sorted key (x :: l)) = x.
Proof.
  intros H. simpl.
  pose proof (sorted_perm key l) as P.
  destruct (sorted key l) as [|y s]; simpl; [reflexivity|].
  assert (Hy : key x <= key y).
  { apply H. eapply Permutation_in; [apply Permutation_sym, P|now left]. }
  apply Z.leb_le in Hy. now rewrite Hy.
Qed.

(** The turn of the loop on a dict whose first GPU has [v] places left,
    no more than the [m] places of each of the others. *)
Lemma assign_gpu_first (q v m : Z) (ks : list Z) :
  1 <= v <= m ->
  assign_gpu ((q, v) :: map (fun k => (k, m)) ks)
  = (if v =? 1 then map (fun k => (k, m)) ks
     else (q, v - 1) :: map (fun k => (k, m)) ks,
     [q]).
Proof.
  intros Hv. unfold assign_gpu. cbn [truthy_list].
  set (d := (q, v) :: map (fun k => (k, m)) ks).
  set (key := fun k => match Dict.get d k with Some v => v | None => 0 end).
  assert (Hkeys : Dict.keys d = q :: ks).
  { unfold d. simpl. f_equal. apply DictFacts.keys_const. }
  assert (Hq : Dict.get d q = Some v).
  { unfold d. simpl. now rewrite Z.eqb_refl. }
  assert (Hhd : hd 0 (sorted key (Dict.keys d)) = q).
  { rewrite Hkeys. apply sorted_hd_first. intros y Hy.
    unfold key. rewrite Hq. unfold d. simpl.
    destruct (q =? y); [lia|].
    rewrite DictFacts.get_const.
    destruct (in_dec Z.eq_dec y ks); [lia|contradiction]. }
  rewrite Hhd. rewrite Hq.
  unfold d at 1 2 3. simpl Dict.set. rewrite Z.eqb_refl.
  simpl Dict.get. rewrite Z.eqb_refl.
  unfold truthy_int.
  destruct (Z.eqb_spec (v - 1) 0) as [E|E]; cbn [negb].
  - simpl Dict.del. rewrite Z.eqb_refl.
    replace (v =? 1) with true by (symmetry; apply Z.eqb_eq; lia).
    reflexivity.
  - replace (v =? 1) with false by (symmetry; apply Z.eqb_neq; lia).
    reflexivity.
Qed.

Lemma fill_first_cons (n : nat) (a : list Z) (slots : list (list Z)) :
  fill_first (S n) (a :: slots) = a :: fill_first n slots.
Proof. reflexivity. Qed.

Lemma fill_first_nil (n : nat) : fill_first n [] = repeat [] n.
Proof.
  unfold fill_first. rewrite firstn_nil. simpl. now rewrite Nat.sub_0_r.
Qed.

(** The loop from a dict of the shape above gives the workers the slots
    in order. *)
Lemma assign_workers_fill (backend : option string) (m : Z) :
  1 <= m ->
  forall workers q v ks acc,
    1 <= v <= m ->
    snd (assign_workers workers backend
           ((q, v) :: map (fun k => (k, m)) ks) acc)
    = acc ++ map (fun a => mkInitKwargs a backend)
               (fill_first (List.length workers)
                  (repeat [q] (Z.to_nat v)
                   ++ flat_map (fun k => repeat [k] (Z.to_nat m)) ks)).
Proof.
  intros Hm. induction workers as [|w ws IH]; intros q v ks acc Hv.
  - simpl. unfold fill_first. simpl. now rewrite app_nil_r.
  - cbn [assign_workers]. rewrite (assign_gpu_first q v m ks Hv).
    replace (Z.to_nat v) with (S (Z.to_nat (v - 1))) by lia.
    cbn [repeat app List.length]. rewrite fill_first_cons. cbn [map].
    destruct (Z.eqb_spec v 1) as [->|Hv1].
    + simpl Z.to_nat. cbn [repeat app].
      destruct ks as [|k ks'].
      * cbn [map flat_map]. rewrite assign_workers_no_gpu_left.
        cbn [snd]. rewrite fill_first_nil, map_repeat, <- app_assoc.
        reflexivity.
      * cbn [map flat_map]. rewrite IH by lia.
        rewrite <- app_assoc. reflexivity.
    + rewrite IH by lia. rewrite <- app_assoc. reflexivity.
Qed.

(** The plan of [worker_pool_with_gpu_assignments] in closed form. *)
Lemma plan_fills_first (num_workers num_gpus : Z) (backend : option string)
    (max_workers_per_gpu : Z) :
  num_gpus <> 0 -> 1 <= max_workers_per_gpu ->
  exists plan,
    plan_worker_init_kwargs num_workers num_gpus backend max_workers_per_gpu
    = Some plan
    /\ map gpu_device_nums plan
       = fill_first (Z.to_nat num_workers)
           (gpu_slots num_gpus max_workers_per_gpu).
Proof.
  intros Hg Hm. unfold plan_worker_init_kwargs, truthy_int.
  apply Z.eqb_neq in Hg. rewrite Hg. cbn [negb].
  eexists. split; [reflexivity|].
  rewrite DictFacts.of_keys_NoDup by apply NoDup_range.
  assert (Hlen : List.length (range num_workers) = Z.to_nat num_workers).
  { unfold range. now rewrite length_map, length_seq. }
  unfold gpu_slots.
  destruct (range num_gpus) as [|q ks].
  - cbn [map flat_map]. rewrite assign_workers_no_gpu_left. cbn [snd app].
    rewrite fill_first_nil, Hlen, map_repeat. reflexivity.
  - cbn [map flat_map]. rewrite assign_workers_fill by lia.
    cbn [app]. rewrite map_map. cbn [gpu_device_nums].
    rewrite map_id, Hlen. reflexivity.
Qed.

(** What [worker_pool_with_gpu_assignments] returns when GPUs are asked
    for. *)
Lemma worker_pool_with_gpus (cpu_count num_jobs num_gpus : Z)
    (backend : option string) (max_workers_per_gpu : Z)
    (max_tasks_per_worker : option Z) :
  1 <= num_jobs -> num_gpus <> 0 ->
  exists plan,
    plan_worker_init_kwargs num_jobs num_gpus backend max_workers_per_gpu
    = Some plan
    /\ Z.of_nat (List.length plan) = num_jobs
    /\ worker_pool_with_gpu_assignments cpu_count num_jobs num_gpus backend
         max_workers_per_gpu max_tasks_per_worker
       = ([EvPool num_jobs],
          Return (Some (mkPool num_jobs
                          (if truthy_opt_int max_tasks_per_worker
                           then max_tasks_per_worker else None)
                          (EntryPoint worker_init plan plan)))).
Proof.
  intros Hj Hg.
  destruct (plan_worker_init_kwargs_length num_jobs num_gpus backend
              max_workers_per_gpu) as [plan [Eplan Hlen]]; [lia|assumption|].
  exists plan. split; [assumption|]. split; [assumption|].
  unfold worker_pool_with_gpu_assignments, truthy_int.
  assert (E : (num_jobs =? 0) = false) by (apply Z.eqb_neq; lia).
  rewrite E. cbn [negb]. rewrite E, Eplan.
  rewrite make_worker_pool_queues;
    [reflexivity|lia|now apply (nonempty_of_length plan num_jobs)|assumption].
Qed.

Lemma gpu_slots_one_gpu (num_gpus max_workers_per_gpu : Z) (a : list Z) :
  In a (gpu_slots num_gpus max_workers_per_gpu) ->
  exists k, 0 <= k < num_gpus /\ a = [k].
Proof.
  unfold gpu_slots. rewrite in_flat_map. intros [k [Hk Ha]].
  apply repeat_spec in Ha. apply In_range in Hk. eauto.
Qed.

Lemma length_gpu_slots (num_gpus max_workers_per_gpu : Z) :
  List.length (gpu_slots num_gpus max_workers_per_gpu)
  = (Z.to_nat num_gpus * Z.to_nat max_workers_per_gpu)%nat.
Proof.
  unfold gpu_slots.
  rewrite flat_map_constant_length with (c := Z.to_nat max_workers_per_gpu).
  - unfold range. now rewrite length_map, length_seq.
  - intros k _. apply repeat_length.
Qed.

Lemma In_firstn_In {A : Type} (n : nat) (l : list A) (x : A) :
  In x (firstn n l) -> In x l.
Proof.
  intros H. rewrite <- (firstn_skipn n l). apply in_or_app. now left.
Qed.

Lemma filter_all {A : Type} (f : A -> bool) (l : list A) :
  (forall x, In x l -> f x = true) -> filter f l = l.
Proof.
  induction l as [|x l IH]; intros H; simpl; [reflexivity|].
  rewrite (H x) by now left. f_equal. apply IH. intros y Hy. apply H. now right.
Qed.

Lemma filter_none {A : Type} (f : A -> bool) (l : list A) :
  (forall x, In x l -> f x = false) -> filter f l = [].
Proof.
  induction l as [|x l IH]; intros H; simpl; [reflexivity|].
  rewrite (H x) by now left. apply IH. intros y Hy. apply H. now right.
Qed.

(** X1. For [num_jobs >= 1], [num_gpus >= 1] and
    [max_workers_per_gpu >= 1] the workers are given, by index, the GPU
    slots in order, GPU 0 [max_workers_per_gpu] times, then GPU 1, and so
    on, and the empty list once the slots are used up. *)
Theorem gpu_assignments_fill_each_gpu_in_turn :
  forall (cpu_count num_jobs num_gpus : Z) (backend : option string)
         (max_workers_per_gpu : Z) (max_tasks_per_worker : option Z),
    1 <= num_jobs -> 1 <= num_gpus -> 1 <= max_workers_per_gpu ->
    worker_gpu_assignments
      (worker_pool_with_gpu_assignments cpu_count num_jobs num_gpus backend
         max_workers_per_gpu max_tasks_per_worker)
    = Some (fill_first (Z.to_nat num_jobs)
              (gpu_slots num_gpus max_workers_per_gpu)).
Proof.
  intros cpu_count num_jobs num_gpus backend m mt Hj Hg Hm.
  destruct (worker_pool_with_gpus cpu_count num_jobs num_gpus backend m mt)
    as (plan & Eplan & _ & ->); [lia|lia|].
  destruct (plan_fills_first num_jobs num_gpus backend m)
    as (plan' & Eplan' & Hfill); [lia|lia|].
  rewrite Eplan in Eplan'. injection Eplan' as <-.
  unfold worker_gpu_assignments. cbn. now rewrite Hfill.
Qed.

(** Seven workers on two GPUs that take three workers each. *)
Lemma gpu_assignments_fill_each_gpu_in_turn_witness :
  worker_gpu_assignments
    (worker_pool_with_gpu_assignments 8 7 2 None 3 None)
  = Some [[0]; [0]; [0]; [1]; [1]; [1]; []].
Proof.
  apply (gpu_assignments_fill_each_gpu_in_turn 8 7 2 None 3 None); lia.
Defined.

(** X2. For [num_jobs >= 1], [num_gpus >= 1] and
    [max_workers_per_gpu >= 1], the number of workers that are given a GPU
    is the smaller of [num_jobs] and [num_gpus * max_workers_per_gpu]. *)
Theorem gpu_workers_count :
  forall (cpu_count num_jobs num_gpus : Z) (backend : option string)
         (max_workers_per_gpu : Z) (max_tasks_per_worker : option Z),
    1 <= num_jobs -> 1 <= num_gpus -> 1 <= max_workers_per_gpu ->
    exists pool plan,
      worker_pool_with_gpu_assignments cpu_count num_jobs num_gpus backend
        max_workers_per_gpu max_tasks_per_worker
      = ([EvPool num_jobs], Return (Some pool))
      /\ pool_initializer pool = EntryPoint worker_init plan plan
      /\ Z.of_nat (List.length (filter has_gpu plan))
         = Z.min num_jobs (num_gpus * max_workers_per_gpu).
Proof.
  intros cpu_count num_jobs num_gpus backend m mt Hj Hg Hm.
  destruct (worker_pool_with_gpus cpu_count num_jobs num_gpus backend m mt)
    as (plan & Eplan & _ & ->); [lia|lia|].
  destruct (plan_fills_first num_jobs num_gpus backend m)
    as (plan' & Eplan' & Hfill); [lia|lia|].
  rewrite Eplan in Eplan'. injection Eplan' as <-.
  eexists. exists plan. split; [reflexivity|]. split; [reflexivity|].
  assert (E : List.length (filter has_gpu plan)
              = List.length (filter truthy_list (map gpu_device_nums plan))).
  { rewrite filter_map_swap, length_map. reflexivity. }
  rewrite E, Hfill. unfold fill_first. rewrite filter_app.
  rewrite (filter_all truthy_list (firstn _ _)).
  - rewrite (filter_none truthy_list (repeat _ _)).
    + rewrite app_nil_r, length_firstn, length_gpu_slots. nia.
    + intros x Hx. apply repeat_spec in Hx. now subst.
  - intros x Hx. apply In_firstn_In, gpu_slots_one_gpu in Hx.
    destruct Hx as [k [_ ->]]. reflexivity.
Qed.

Lemma gpu_workers_count_witness :
  exists pool plan,
    worker_pool_with_gpu_assignments 8 7 2 None 3 None
    = ([EvPool 7], Return (Some pool))
    /\ pool_initializer pool = EntryPoint worker_init plan plan
    /\ Z.of_nat (List.length (filter has_gpu plan)) = Z.min 7 (2 * 3).
Proof.
  apply (gpu_workers_count 8 7 2 None 3 None); lia.
Defined.

(** X3. For [num_jobs >= 1], [num_gpus >= 1] and
    [max_workers_per_gpu >= 1], once a worker is given no GPU, no worker of
    a higher index is given one. *)
Theorem cpu_workers_come_last :
  forall (cpu_count num_jobs num_gpus : Z) (backend : option string)
         (max_workers_per_gpu : Z) (max_tasks_per_worker : option Z),
    1 <= num_jobs -> 1 <= num_gpus -> 1 <= max_workers_per_gpu ->
    exists pool plan,
      worker_pool_with_gpu_assignments cpu_count num_jobs num_gpus backend
        max_workers_per_gpu max_tasks_per_worker
      = ([EvPool num_jobs], Return (Some pool))
      /\ pool_initializer pool = EntryPoint worker_init plan plan
      /\ forall i j kw kw',
           (i <= j)%nat ->
           nth_error plan i = Some kw -> gpu_device_nums kw = [] ->
           nth_error plan j = Some kw' -> gpu_device_nums kw' = [].
Proof.
  intros cpu_count num_jobs num_gpus backend m mt Hj Hg Hm.
  destruct (worker_pool_with_gpus cpu_count num_jobs num_gpus backend m mt)
    as (plan & Eplan & _ & ->); [lia|lia|].
  destruct (plan_fills_first num_jobs num_gpus backend m)
    as (plan' & Eplan' & Hfill); [lia|lia|].
  rewrite Eplan in Eplan'. injection Eplan' as <-.
  eexists. exists plan. split; [reflexivity|]. split; [reflexivity|].
  intros i j kw kw' Hij Hi Hkw Hj'.
  apply (map_nth_error gpu_device_nums) in Hi, Hj'.
  rewrite Hfill in Hi, Hj'. rewrite Hkw in Hi. unfold fill_first in Hi, Hj'.
  set (taken := firstn (Z.to_nat num_jobs) (gpu_slots num_gpus m)) in *.
  assert (Hlen : (List.length taken <= i)%nat).
  { destruct (Nat.le_gt_cases (List.length taken) i) as [H|H]; [exact H|].
    rewrite nth_error_app1 in Hi by exact H.
    apply nth_error_In, In_firstn_In, gpu_slots_one_gpu in Hi.
    destruct Hi as [k [_ Hk]]. discriminate. }
  rewrite nth_error_app2 in Hj' by lia.
  apply nth_error_In, repeat_spec in Hj'. exact Hj'.
Qed.

Lemma cpu_workers_come_last_witness :
  exists pool plan,
    worker_pool_with_gpu_assignments 8 7 2 None 3 None
    = ([EvPool 7], Return (Some pool))
    /\ pool_initializer pool = EntryPoint worker_init plan plan
    /\ forall i j kw kw',
         (i <= j)%nat ->
         nth_error plan i = Some kw -> gpu_device_nums kw = [] ->
         nth_error plan j = Some kw' -> gpu_device_nums kw' = [].
Proof.
  apply (cpu_workers_come_last 8 7 2 None 3 None); lia.
Defined.

(** ** The backend of the workers *)

Lemma assign_workers_backend (workers : list Z) (backend : option string) :
  forall d acc,
    Forall (fun kw => keras_backend kw = backend) acc ->
    Forall (fun kw => keras_backend kw = backend)
      (snd (assign_workers workers backend d acc)).
Proof.
  induction workers as [|w ws IH]; intros d acc H; simpl; [exact H|].
  destruct (assign_gpu d) as [d' a]. apply IH.
  apply Forall_app. split; [exact H|]. constructor; [reflexivity|constructor].
Qed.

Lemma plan_backend_forced (num_workers num_gpus : Z)
    (backend : option string) (max_workers_per_gpu : Z)
    (plan : list InitKwargs) :
  plan_worker_init_kwargs num_workers num_gpus backend max_workers_per_gpu
  = Some plan ->
  Forall (fun kw => keras_backend kw = Some "tensorflow-default"%string) plan.
Proof.
  unfold plan_worker_init_kwargs.
  destruct (truthy_int num_gpus); [|discriminate]. intros [= <-].
  match goal with
  | |- context [assign_workers _ ?b _ _] =>
      assert (Eb : b = Some "tensorflow-default"%string)
  end.
  { destruct (opt_string_eqb backend (Some "tensorflow-default"%string))
      eqn:E; cbn [negb]; [|reflexivity].
    destruct backend as [b|]; [|discriminate].
    simpl in E. apply String.eqb_eq in E. now subst. }
  rewrite Eb. apply assign_workers_backend. constructor.
Qed.

(** X4. For [num_jobs >= 1] and [num_gpus <> 0], whatever [backend] the
    caller passes, every worker, also one that is given no GPU, is
    initialized by reseeding both random generators and then calling
    [set_keras_backend] with [tensorflow-default] and its GPU list. *)
Theorem gpu_pool_workers_set_default_backend :
  forall (cpu_count num_jobs num_gpus : Z) (backend : option string)
         (max_workers_per_gpu : Z) (max_tasks_per_worker : option Z),
    1 <= num_jobs -> num_gpus <> 0 ->
    exists pool plan,
      worker_pool_with_gpu_assignments cpu_count num_jobs num_gpus backend
        max_workers_per_gpu max_tasks_per_worker
      = ([EvPool num_jobs], Return (Some pool))
      /\ pool_initializer pool = EntryPoint worker_init plan plan
      /\ Forall
           (fun kw =>
              keras_backend kw = Some "tensorflow-default"%string
              /\ worker_init_kwargs kw
                 = [EvNumpySeed; EvRandomSeed;
                    EvWorkerKerasBackend (Some "tensorflow-default"%string)
                      (Some (gpu_device_nums kw))])
           plan.
Proof.
  intros cpu_count num_jobs num_gpus backend m mt Hj Hg.
  destruct (worker_pool_with_gpus cpu_count num_jobs num_gpus backend m mt)
    as (plan & Eplan & _ & ->); [lia|assumption|].
  eexists. exists plan. split; [reflexivity|]. split; [reflexivity|].
  apply plan_backend_forced in Eplan.
  eapply Forall_impl; [|exact Eplan].
  intros kw Hkw. split; [exact Hkw|].
  unfold worker_init_kwargs, worker_init_body. rewrite Hkw. reflexivity.
Qed.

(** Three workers on one GPU that takes two, the caller asking for the
    CPU backend. *)
Lemma gpu_pool_workers_set_default_backend_witness :
  exists pool plan,
    worker_pool_with_gpu_assignments 8 3 1 (Some "tensorflow-cpu"%string)
      2 None
    = ([EvPool 3], Return (Some pool))
    /\ pool_initializer pool = EntryPoint worker_init plan plan
    /\ Forall
         (fun kw =>
            keras_backend kw = Some "tensorflow-default"%string
            /\ worker_init_kwargs kw
               = [EvNumpySeed; EvRandomSeed;
                  EvWorkerKerasBackend (Some "tensorflow-default"%string)
                    (Some (gpu_device_nums kw))])
         plan.
Proof.
  apply (gpu_pool_workers_set_default_backend 8 3 1
           (Some "tensorflow-cpu"%string) 2 None).
  - lia.
  - discriminate.
Defined.

(** X5. For [num_jobs >= 1] and [num_gpus = 0], [backend] and
    [max_workers_per_gpu] have no effect: the pool has [num_jobs]
    processes that run [worker_init] without arguments, and
    [set_keras_backend] is not called in the parent. *)
Theorem no_gpus_backend_is_ignored :
  forall (cpu_count num_jobs : Z) (backend : option string)
         (max_workers_per_gpu : Z) (max_tasks_per_worker : option Z),
    1 <= num_jobs ->
    worker_pool_with_gpu_assignments cpu_count num_jobs 0 backend
      max_workers_per_gpu max_tasks_per_worker
    = ([EvPool num_jobs],
       Return (Some (mkPool num_jobs
                       (if truthy_opt_int max_tasks_per_worker
                        then max_tasks_per_worker else None)
                       (Initializer worker_init)))).
Proof.
  intros cpu_count num_jobs backend m mt Hj.
  unfold worker_pool_with_gpu_assignments, truthy_int.
  assert (E : (num_jobs =? 0) = false) by (apply Z.eqb_neq; lia).
  rewrite E. cbn [negb]. rewrite E.
  rewrite plan_worker_init_kwargs_no_gpus.
  rewrite make_worker_pool_no_kwargs by lia. reflexivity.
Qed.

Lemma no_gpus_backend_is_ignored_witness :
  worker_pool_with_gpu_assignments 8 4 0 (Some "tensorflow-gpu"%string)
    1000 None
  = ([EvPool 4], Return (Some (mkPool 4 None (Initializer worker_init)))).
Proof.
  apply (no_gpus_backend_is_ignored 8 4 (Some "tensorflow-gpu"%string)
           1000 None).
  lia.
Defined.

(** X6. For [num_jobs >= 0] on a machine with [cpu_count() >= 0],
    [worker_pool_with_gpu_assignments] never fails the length assertion
    of [make_worker_pool]: it returns [None] when the number of workers is
    zero, and otherwise the pool it has constructed, of that many
    processes, without a call to [set_keras_backend] in the parent. *)
Theorem worker_pool_never_fails_assertion :
  forall (cpu_count num_jobs num_gpus : Z) (backend : option string)
         (max_workers_per_gpu : Z) (max_tasks_per_worker : option Z),
    0 <= cpu_count -> 0 <= num_jobs ->
    let num_workers := if num_jobs =? 0 then cpu_count else num_jobs in
    exists trace result,
      worker_pool_with_gpu_assignments cpu_count num_jobs num_gpus backend
        max_workers_per_gpu max_tasks_per_worker
      = (trace, Return result)
      /\ match result with
         | Some pool => 1 <= num_workers
                        /\ trace = [EvPool num_workers]
                        /\ processes pool = num_workers
         | None => num_workers = 0
         end.
Proof.
  intros cpu_count num_jobs num_gpus backend m mt Hcpu Hjobs num_workers.
  assert (Hnw : 0 <= num_workers)
    by (unfold num_workers; destruct (num_jobs =? 0); lia).
  unfold worker_pool_with_gpu_assignments, truthy_int.
  replace (if negb (num_jobs =? 0) then num_jobs else cpu_count)
    with num_workers
    by (unfold num_workers; now destruct (num_jobs =? 0)).
  destruct (Z.eqb_spec num_workers 0) as [E0|E0].
  - destruct backend as [b|]; [destruct (truthy_str b)|];
      do 2 eexists; (split; [reflexivity|exact E0]).
  - destruct (Z.eq_dec num_gpus 0) as [->|Hg].
    + rewrite plan_worker_init_kwargs_no_gpus.
      rewrite make_worker_pool_no_kwargs by assumption.
      do 2 eexists. split; [reflexivity|]. cbn. repeat split. lia.
    + destruct (plan_worker_init_kwargs_length num_workers num_gpus backend m)
        as [plan [-> Hlen]]; [lia|assumption|].
      rewrite make_worker_pool_queues;
        [|assumption|apply (nonempty_of_length plan num_workers); lia
         |assumption].
      do 2 eexists. split; [reflexivity|]. cbn. repeat split. lia.
Qed.

(** On a machine with eight CPUs, [num_jobs=0] and two GPUs. *)
Lemma worker_pool_never_fails_assertion_witness :
  exists trace result,
    worker_pool_with_gpu_assignments 8 0 2 None 1 None
    = (trace, Return result)
    /\ match result with
       | Some pool => 1 <= 8 /\ trace = [EvPool 8] /\ processes pool = 8
       | None => 8 = 0
       end.
Proof.
  apply (worker_pool_never_fails_assertion 8 0 2 None 1 None); lia.
Defined.

(** ** The command line *)

Lemma range_from_0 (n : Z) : 1 <= n -> exists ks, range n = 0 :: ks.
Proof.
  intros Hn. unfold range.
  destruct (Z.to_nat n) as [|k] eqn:E; [lia|].
  simpl. eauto.
Qed.

Lemma firstn_repeat_le {A : Type} (x : A) (n m : nat) :
  (n <= m)%nat -> firstn n (repeat x m) = repeat x n.
Proof.
  revert m. induction n as [|n IH]; intros m H; [reflexivity|].
  destruct m as [|m]; [lia|]. simpl. f_equal. apply IH. lia.
Qed.

(** No more workers than one GPU takes: all of them on GPU 0. *)
Lemma fill_first_one_gpu (n : nat) (num_gpus max_workers_per_gpu : Z) :
  1 <= num_gpus -> (n <= Z.to_nat max_workers_per_gpu)%nat ->
  fill_first n (gpu_slots num_gpus max_workers_per_gpu) = repeat [0] n.
Proof.
  intros Hg Hn. unfold fill_first, gpu_slots.
  destruct (range_from_0 num_gpus Hg) as [ks ->]. cbn [flat_map].
  rewrite firstn_app, firstn_repeat_le by assumption.
  rewrite length_app, repeat_length.
  assert (E : forall r, (n - (Z.to_nat max_workers_per_gpu + r) = 0)%nat)
    by (intros r; lia).
  rewrite E.
  replace (n - Z.to_nat max_workers_per_gpu)%nat with 0%nat by lia.
  simpl. now rewrite !app_nil_r.
Qed.

(** X7. From the command line, with [--gpus] at least 1,
    [--max-workers-per-gpu] left at its default of 1000 and [--num-jobs]
    between 1 and 1000, every worker is given GPU 0, however many GPUs
    there are. *)
Theorem default_cap_puts_every_worker_on_gpu_0 :
  forall (cpu_count : Z) (args : Args) (gpus : Z),
    args_gpus args = Some gpus -> 1 <= gpus ->
    args_max_workers_per_gpu args
    = args_max_workers_per_gpu add_worker_pool_args_defaults ->
    1 <= args_num_jobs args <= 1000 ->
    worker_gpu_assignments
      (worker_pool_with_gpu_assignments_from_args cpu_count args)
    = Some (repeat [0] (Z.to_nat (args_num_jobs args))).
Proof.
  intros cpu_count [n b g m mt] gpus. cbn. intros -> Hg -> Hn.
  unfold worker_pool_with_gpu_assignments_from_args. cbn.
  destruct (worker_pool_with_gpus cpu_count n gpus b 1000 mt)
    as (plan & Eplan & _ & ->); [lia|lia|].
  destruct (plan_fills_first n gpus b 1000)
    as (plan' & Eplan' & Hfill); [lia|lia|].
  rewrite Eplan in Eplan'. injection Eplan' as <-.
  unfold worker_gpu_assignments. cbn [snd pool_initializer].
  rewrite Hfill, fill_first_one_gpu by lia. reflexivity.
Qed.

(** Six jobs on four GPUs. *)
Lemma default_cap_puts_every_worker_on_gpu_0_witness :
  worker_gpu_assignments
    (worker_pool_with_gpu_assignments_from_args 8
       (mkArgs 6 None (Some 4) 1000 None))
  = Some (repeat [0] (Z.to_nat 6)).
Proof.
  apply (default_cap_puts_every_worker_on_gpu_0 8
           (mkArgs 6 None (Some 4) 1000 None) 4).
  - reflexivity.
  - lia.
  - reflexivity.
  - simpl. lia.
Defined.

(** ** More on [make_worker_pool] *)

(** X8. For [processes >= 1] and a list of as many sets, the pool is
    constructed with [worker_init_entry_point] as its initializer, and the
    argument queue and the backup queue both hold the sets of the list, in
    its order. *)
Theorem make_worker_pool_fills_both_queues :
  forall (cpu_count : Z) (F K : Type) (num_processes : Z) (initializer : F)
         (initializer_kwargs_per_process : list K)
         (max_tasks_per_worker : option Z),
    1 <= num_processes ->
    Z.of_nat (List.length initializer_kwargs_per_process) = num_processes ->
    exists pool,
      make_worker_pool cpu_count (Some num_processes) (Some initializer)
        (Some initializer_kwargs_per_process) max_tasks_per_worker
      = ([EvPool num_processes], Return pool)
      /\ processes pool = num_processes
      /\ pool_initializer pool
         = EntryPoint initializer initializer_kwargs_per_process
             initializer_kwargs_per_process.
Proof.
  intros cpu_count F K num_processes f l mt Hp Hlen.
  rewrite make_worker_pool_queues;
    [|lia|now apply (nonempty_of_length l num_processes)|assumption].
  eexists. split; [reflexivity|]. split; reflexivity.
Qed.

Lemma make_worker_pool_fills_both_queues_witness :
  exists pool,
    make_worker_pool 8 (Some 2) (Some worker_init)
      (Some [mkInitKwargs [0] None; mkInitKwargs [1] None]) None
    = ([EvPool 2], Return pool)
    /\ processes pool = 2
    /\ pool_initializer pool
       = EntryPoint worker_init
           [mkInitKwargs [0] None; mkInitKwargs [1] None]
           [mkInitKwargs [0] None; mkInitKwargs [1] None].
Proof.
  apply (make_worker_pool_fills_both_queues 8 InitFunction InitKwargs 2
           worker_init [mkInitKwargs [0] None; mkInitKwargs [1] None] None).
  - lia.
  - reflexivity.
Defined.

(** X9. Without an initializer the per-process kwargs are not looked at:
    for [processes >= 1] the pool is constructed with no initializer
    whatever list is passed, also one whose length differs from
    [processes]. *)
Theorem make_worker_pool_without_initializer_ignores_kwargs :
  forall (cpu_count : Z) (F K : Type) (processes : Z)
         (initializer_kwargs_per_process : option (list K))
         (max_tasks_per_worker : option Z),
    1 <= processes ->
    make_worker_pool cpu_count (Some processes) (@None F)
      initializer_kwargs_per_process max_tasks_per_worker
    = ([EvPool processes],
       Return (mkPool processes
                 (if truthy_opt_int max_tasks_per_worker
                  then max_tasks_per_worker else None)
                 NoInitializer)).
Proof.
  intros cpu_count F K processes kwargs mt Hp.
  unfold make_worker_pool, truthy_int.
  replace (processes =? 0) with false by (symmetry; apply Z.eqb_neq; lia).
  reflexivity.
Qed.

Lemma make_worker_pool_without_initializer_ignores_kwargs_witness :
  make_worker_pool 8 (Some 3) (@None InitFunction)
    (Some [mkInitKwargs [0] None]) None
  = ([EvPool 3], Return (mkPool 3 None NoInitializer)).
Proof.
  apply (make_worker_pool_without_initializer_ignores_kwargs 8 InitFunction
           InitKwargs 3 (Some [mkInitKwargs [0] None]) None).
  lia.
Defined.

(** X10. With [processes] left out or zero, on a machine with
    [cpu_count() >= 1], the pool has [cpu_count()] processes, and a
    non-empty list of kwargs is accepted when it has [cpu_count()] sets and
    fails the assertion otherwise. *)
Theorem make_worker_pool_default_processes :
  forall (cpu_count : Z) (F K : Type) (processes : option Z)
         (initializer : F) (initializer_kwargs_per_process : list K)
         (max_tasks_per_worker : option Z),
    1 <= cpu_count ->
    processes = None \/ processes = Some 0 ->
    initializer_kwargs_per_process <> [] ->
    make_worker_pool cpu_count processes (Some initializer)
      (Some initializer_kwargs_per_process) max_tasks_per_worker
    = if Z.of_nat (List.length initializer_kwargs_per_process) =? cpu_count
      then ([EvPool cpu_count],
            Return (mkPool cpu_count
                      (if truthy_opt_int max_tasks_per_worker
                       then max_tasks_per_worker else None)
                      (EntryPoint initializer initializer_kwargs_per_process
                         initializer_kwargs_per_process)))
      else ([], Raise AssertionError).
Proof.
  intros cpu_count F K processes f l mt Hcpu Hp Hl.
  assert (E : make_worker_pool cpu_count processes (Some f) (Some l) mt
              = make_worker_pool cpu_count (Some cpu_count) (Some f)
                  (Some l) mt).
  { unfold make_worker_pool, truthy_int.
    destruct Hp as [->| ->]; cbn [Z.eqb negb];
      destruct (cpu_count =? 0); reflexivity. }
  rewrite E.
  destruct (Z.eqb_spec (Z.of_nat (List.length l)) cpu_count) as [Hlen|Hlen].
  - apply make_worker_pool_queues; [lia|assumption|assumption].
  - unfold make_worker_pool, truthy_int.
    replace (cpu_count =? 0) with false by (symmetry; apply Z.eqb_neq; lia).
    cbn [negb]. rewrite make_pool_initializer_mismatch by assumption.
    reflexivity.
Qed.

(** Two sets on a machine with two CPUs. *)
Lemma make_worker_pool_default_processes_witness :
  make_worker_pool 2 None (Some worker_init)
    (Some [mkInitKwargs [0] None; mkInitKwargs [1] None]) None
  = ([EvPool 2],
     Return (mkPool 2 None
               (EntryPoint worker_init
                  [mkInitKwargs [0] None; mkInitKwargs [1] None]
                  [mkInitKwargs [0] None; mkInitKwargs [1] None]))).
Proof.
  apply (make_worker_pool_default_processes 2 InitFunction InitKwargs None
           worker_init [mkInitKwargs [0] None; mkInitKwargs [1] None] None).
  - lia.
  - now left.
  - discriminate.
Defined.

(** ** Workers over time *)


(** X12. A worker that finds a set on the argument queue and later exits
    cleanly leaves the argument queue with the same sets, its own moved to
    the end, and does not touch the backup queue. *)
Theorem worker_lifetime_keeps_argument_queue :
  forall (K : Type) (empty_kwargs : K)
         (init_function : K -> Outcome Exception unit)
         (kwargs : K) (rest : Queue.t K)
         (backup_arg_queue : option (Queue.t K)),
    worker_lifetime empty_kwargs init_function
      (Some (kwargs :: rest)) backup_arg_queue
    = Some (Some (rest ++ [kwargs]), backup_arg_queue)
    /\ Permutation (kwargs :: rest) (rest ++ [kwargs]).
Proof.
  intros. split; [reflexivity|apply Permutation_cons_append].
Qed.

(** X13. A worker that finds the argument queue empty, reads its set
    from the backup queue and later exits cleanly puts that set on the
    argument queue: the argument queue then holds one set, and the backup
    queue as many as before. *)
Theorem worker_lifetime_refills_argument_queue :
  forall (K : Type) (empty_kwargs : K)
         (init_function : K -> Outcome Exception unit)
         (kwargs : K) (rest : Queue.t K),
    worker_lifetime empty_kwargs init_function
      (Some []) (Some (kwargs :: rest))
    = Some (Some [kwargs], Some (rest ++ [kwargs]))
    /\ List.length (rest ++ [kwargs]) = List.length (kwargs :: rest).
Proof.
  intros. split; [reflexivity|]. rewrite length_app. simpl. lia.
Qed.

Section FirstWorkers.

Context {K : Type}.
Variable empty_kwargs : K.
Variable init_function : K -> Outcome Exception unit.

(** The sets the pool was built from. *)
Variable sets : list K.
Hypothesis sets_nonempty : sets <> [].

(** Whatever each worker sees of the argument queue, every worker is
    initialized with one of the sets, the argument queue keeps an end of
    what it held, and the backup queue keeps all the sets. *)
Lemma start_workers_seen_sets (seen : list bool) :
  forall q qb,
    (forall x, In x q -> In x sets) -> Permutation sets qb ->
    exists given q' qb',
      start_workers_seen empty_kwargs init_function seen (Some q) (Some qb)
      = Some (given, Some q', Some qb')
      /\ List.length given = List.length seen
      /\ Forall (fun kwargs => In kwargs sets) given
      /\ Permutation sets qb'
      /\ exists taken, q = taken ++ q'.
Proof.
  induction seen as [|b seen IH]; intros q qb Hq Hqb.
  - exists [], q, qb. repeat split; auto. now exists [].
  - assert (Hbackup :
      forall q0, (forall x, In x q0 -> In x sets) ->
        exists y r,
          qb = y :: r
          /\ exists given q' qb',
               start_workers_seen empty_kwargs init_function seen
                 (Some q0) (Some (Queue.put r y))
               = Some (given, Some q', Some qb')
               /\ List.length given = List.length seen
               /\ Forall (fun kwargs => In kwargs sets) given
               /\ Permutation sets qb'
               /\ (exists taken, q0 = taken ++ q')
               /\ In y sets).
    { intros q0 Hq0. destruct qb as [|y r].
      - apply Permutation_sym, Permutation_nil in Hqb. contradiction.
      - exists y, r. split; [reflexivity|].
        destruct (IH q0 (Queue.put r y)) as (given & q' & qb' & E & H);
          [exact Hq0| |].
        + eapply perm_trans; [exact Hqb|apply Permutation_cons_append].
        + exists given, q', qb'. split; [exact E|].
          destruct H as (H1 & H2 & H3 & H4). repeat split; auto.
          eapply Permutation_in; [apply Permutation_sym, Hqb|now left]. }
    destruct b; [destruct q as [|x q0]|].
    + (* the argument queue is seen, and is empty *)
      destruct (Hbackup [] Hq) as (y & r & -> & given & q' & qb' & E
                                   & H1 & H2 & H3 & H4 & Hy).
      exists (y :: given), q', qb'.
      cbn [start_workers_seen worker_init_entry_point_seen
           worker_init_entry_point Queue.get].
      unfold Queue.t in *. rewrite E. repeat split; auto; simpl; auto.
    + (* the argument queue is seen, and gives its oldest set *)
      destruct (IH q0 qb) as (given & q' & qb' & E & H1 & H2 & H3 & [t H4]);
        [intros z Hz; apply Hq; now right|exact Hqb|].
      exists (x :: given), q', qb'.
      cbn [start_workers_seen worker_init_entry_point_seen
           worker_init_entry_point Queue.get].
      unfold Queue.t in *. rewrite E. repeat split; auto.
      * simpl. auto.
      * constructor; [apply Hq; now left|exact H2].
      * exists (x :: t). simpl. now rewrite H4.
    + (* the argument queue is not seen *)
      destruct (Hbackup q Hq) as (y & r & -> & given & q' & qb' & E
                                  & H1 & H2 & H3 & H4 & Hy).
      exists (y :: given), q', qb'.
      cbn [start_workers_seen worker_init_entry_point_seen
           worker_init_entry_point Queue.get].
      unfold Queue.t in *. rewrite E. repeat split; auto; simpl; auto.
Qed.

(** When every worker sees the argument queue, as many workers as it
    holds sets take them in order. *)
Lemma start_workers_seen_all (q : list K) :
  forall qb,
    start_workers_seen empty_kwargs init_function
      (repeat true (List.length q)) (Some q) qb
    = Some (q, Some [], qb).
Proof.
  induction q as [|x q IH]; intros qb; [reflexivity|].
  cbn [List.length repeat start_workers_seen worker_init_entry_point_seen
       worker_init_entry_point Queue.get].
  now rewrite IH.
Qed.

End FirstWorkers.

(** X14. The workers of a pool built from a list of [processes] sets,
    started one after the other, each seeing or not what the argument
    queue holds: every worker is initialized with one of the sets of the
    list and none waits for ever; the backup queue still holds the sets of
    the list and the argument queue an end of it; and when there are as
    many workers as sets and each of them sees the argument queue, they
    take the sets of the list in its order. *)
Theorem first_workers_take_sets_of_the_list :
  forall (cpu_count : Z) (F K : Type) (num_processes : Z) (initializer : F)
         (initializer_kwargs_per_process : list K)
         (max_tasks_per_worker : option Z)
         (empty_kwargs : K) (init_function : K -> Outcome Exception unit)
         (seen : list bool),
    1 <= num_processes ->
    Z.of_nat (List.length initializer_kwargs_per_process) = num_processes ->
    exists pool kwargs_queue kwargs_queue_backup given q' qb',
      make_worker_pool cpu_count (Some num_processes) (Some initializer)
        (Some initializer_kwargs_per_process) max_tasks_per_worker
      = ([EvPool num_processes], Return pool)
      /\ pool_initializer pool
         = EntryPoint initializer kwargs_queue kwargs_queue_backup
      /\ start_workers_seen empty_kwargs init_function seen
           (Some kwargs_queue) (Some kwargs_queue_backup)
         = Some (given, Some q', Some qb')
      /\ List.length given = List.length seen
      /\ Forall (fun kwargs => In kwargs initializer_kwargs_per_process)
           given
      /\ Permutation initializer_kwargs_per_process qb'
      /\ (exists taken, initializer_kwargs_per_process = taken ++ q')
      /\ (seen = repeat true (List.length initializer_kwargs_per_process) ->
          given = initializer_kwargs_per_process
          /\ q' = [] /\ qb' = initializer_kwargs_per_process).
Proof.
  intros cpu_count F K num_processes f l mt empty_kwargs init_function seen
    Hp Hlen.
  assert (Hl : l <> []) by now apply (nonempty_of_length l num_processes).
  rewrite make_worker_pool_queues; [|lia|assumption|assumption].
  destruct (start_workers_seen_sets empty_kwargs init_function l Hl seen l l)
    as (given & q' & qb' & E & H1 & H2 & H3 & H4);
    [auto|apply Permutation_refl|].
  eexists. exists l, l, given, q', qb'.
  split; [reflexivity|]. split; [reflexivity|].
  split; [exact E|]. repeat (split; [assumption|]).
  intros ->. rewrite start_workers_seen_all in E.
  injection E as <- <- <-. repeat split.
Qed.

(** Two workers on two sets, the second of which does not see the
    argument queue and takes the first set again, from the backup queue. *)
Lemma first_workers_take_sets_of_the_list_witness :
  exists pool kwargs_queue kwargs_queue_backup given q' qb',
    make_worker_pool 8 (Some 2) (Some worker_init)
      (Some [mkInitKwargs [0] None; mkInitKwargs [1] None]) None
    = ([EvPool 2], Return pool)
    /\ pool_initializer pool
       = EntryPoint worker_init kwargs_queue kwargs_queue_backup
    /\ start_workers_seen (mkInitKwargs [] None) (fun _ => Return tt)
         [true; false] (Some kwargs_queue) (Some kwargs_queue_backup)
       = Some (given, Some q', Some qb')
    /\ List.length given = List.length [true; false]
    /\ Forall
         (fun kwargs =>
            In kwargs [mkInitKwargs [0] None; mkInitKwargs [1] None])
         given
    /\ Permutation [mkInitKwargs [0] None; mkInitKwargs [1] None] qb'
    /\ (exists taken,
          [mkInitKwargs [0] None; mkInitKwargs [1] None] = taken ++ q')
    /\ ([true; false]
        = repeat true
            (List.length [mkInitKwargs [0] None; mkInitKwargs [1] None]) ->
        given = [mkInitKwargs [0] None; mkInitKwargs [1] None]
        /\ q' = [] /\ qb' = [mkInitKwargs [0] None; mkInitKwargs [1] None]).
Proof.
  apply (first_workers_take_sets_of_the_list 8 InitFunction InitKwargs 2
           worker_init [mkInitKwargs [0] None; mkInitKwargs [1] None] None
           (mkInitKwargs [] None) (fun _ => Return tt) [true; false]).
  - lia.
  - reflexivity.
Defined.

(** The second worker of that run is given the set of the first. *)
Example second_worker_unseen_queue_takes_first_set :
  start_workers_seen (mkInitKwargs [] None) (fun _ => Return tt)
    [true; false]
    (Some [mkInitKwargs [0] None; mkInitKwargs [1] None])
    (Some [mkInitKwargs [0] None; mkInitKwargs [1] None])
  = Some ([mkInitKwargs [0] None; mkInitKwargs [0] None],
          Some [mkInitKwargs [1] None],
          Some [mkInitKwargs [1] None; mkInitKwargs [0] None]).
Proof. reflexivity. Qed.

(** X15. While the argument queue stays empty, as after workers that
    never put their set back, up to [N] further workers started one after
    the other on a backup queue of [N] sets are initialized with its first
    sets in order, none of them waits, and the backup queue still holds the
    [N] sets, rotated. *)
Theorem later_workers_share_the_backup_sets :
  forall (K : Type) (empty_kwargs : K)
         (init_function : K -> Outcome Exception unit)
         (n : nat) (backup : Queue.t K),
    (n <= List.length backup)%nat ->
    start_workers empty_kwargs init_function n (Some []) (Some backup)
    = Some (firstn n backup, Some [],
            Some (skipn n backup ++ firstn n backup))
    /\ List.length (skipn n backup ++ firstn n backup) = List.length backup.
Proof.
  intros K empty_kwargs init_function n backup Hn. split.
  - revert backup Hn. induction n as [|n IH]; intros backup Hn.
    + simpl. now rewrite app_nil_r.
    + destruct backup as [|x r]; [simpl in Hn; lia|]. simpl in Hn.
      cbn [start_workers worker_init_entry_point Queue.get].
      unfold Queue.put. rewrite IH by (rewrite length_app; simpl; lia).
      rewrite firstn_app, skipn_app.
      replace (n - List.length r)%nat with 0%nat by lia.
      cbn [firstn skipn]. rewrite app_nil_r, <- app_assoc. reflexivity.
  - rewrite length_app, length_skipn, length_firstn. lia.
Qed.

Lemma later_workers_share_the_backup_sets_witness :
  start_workers 0 (fun _ => Return tt) 2 (Some []) (Some [10; 11; 12])
  = Some (firstn 2 [10; 11; 12], Some [],
          Some (skipn 2 [10; 11; 12] ++ firstn 2 [10; 11; 12]))
  /\ List.length (skipn 2 [10; 11; 12] ++ firstn 2 [10; 11; 12])
     = List.length [10; 11; 12].
Proof.
  apply (later_workers_share_the_backup_sets Z 0 (fun _ => Return tt) 2
           [10; 11; 12]).
  simpl. lia.
Defined.

(** ** More on [get_path] *)

(** X16. A [download_name] that holds ['/'] is refused with the
    assertion message [Invalid download: <download_name>], whatever the
    file name, also with [test_exists=False] and before the file system is
    looked at. *)
Theorem get_path_refuses_slash_in_download_name :
  forall (downloads_dir : string) (exists_ : string -> bool)
         (download_name filename : string) (test_exists : bool),
    Str.contains_char "/" download_name = true ->
    get_path downloads_dir exists_ download_name filename test_exists
    = Raise (AssertionError_msg ("Invalid download: " ++ download_name)).
Proof.
  intros downloads_dir exists_ download_name filename test_exists H.
  unfold get_path. now rewrite H.
Qed.

Lemma get_path_refuses_slash_in_download_name_witness :
  get_path "/data" (fun _ => true) "models/class1" "weights.csv" false
  = Raise (AssertionError_msg ("Invalid download: " ++ "models/class1")).
Proof.
  apply (get_path_refuses_slash_in_download_name "/data" (fun _ => true)
           "models/class1" "weights.csv" false).
  reflexivity.
Defined.

(** X17. [get_path] with [test_exists=True] returns a path exactly when
    the [download_name] holds no ['/'] and the joined path exists, and the
    path it returns is the one [test_exists=False] returns. *)
Theorem get_path_checked_returns_existing_paths_only :
  forall (downloads_dir : string) (exists_ : string -> bool)
         (download_name filename path : string),
    get_path downloads_dir exists_ download_name filename true = Return path
    <-> (get_path downloads_dir exists_ download_name filename false
         = Return path
         /\ exists_ path = true).
Proof.
  intros downloads_dir exists_ download_name filename path.
  unfold get_path, get_downloads_dir.
  destruct (Str.contains_char "/" download_name).
  - split; [discriminate|intros [H _]; discriminate].
  - cbn [andb]. cbv zeta.
    destruct (exists_ (Str.join downloads_dir [download_name; filename]))
      eqn:E; cbn [negb].
    + split.
      * intros [= <-]. split; [reflexivity|exact E].
      * intros [H _]. exact H.
    + split; [discriminate|].
      intros [Hp H].
      assert (Ep : Str.join downloads_dir [download_name; filename] = path)
        by congruence.
      rewrite <- Ep in H. congruence.
Qed.

Lemma startswith_of_contains (s : string) (c : ascii) :
  Str.contains_char c s = false -> Str.startswith s c = false.
Proof.
  destruct s as [|a s]; simpl; [reflexivity|].
  intros H. now apply orb_false_elim in H.
Qed.

Lemma endswith_of_contains (s : string) (c : ascii) :
  Str.contains_char c s = false -> Str.endswith s c = false.
Proof.
  induction s as [|a s IH]; simpl; [reflexivity|].
  intros H. apply orb_false_elim in H. destruct H as [Ha Hs].
  destruct s; [exact Ha|]. now apply IH.
Qed.

Lemma endswith_append (a b : string) (c : ascii) :
  truthy_str b = true -> Str.endswith (a ++ b) c = Str.endswith b c.
Proof.
  intros Hb. induction a as [|x a IH]; [reflexivity|].
  simpl. destruct (a ++ b)%string eqn:E.
  - destruct a; destruct b; simpl in *; discriminate.
  - exact IH.
Qed.

Lemma truthy_str_append_r (a b : string) :
  truthy_str b = true -> truthy_str (a ++ b) = true.
Proof. destruct a; simpl; auto. Qed.

(** X18. A file name that starts with ['/'] takes the place of the whole
    path: for a [download_name] without ['/'], [get_path] with
    [test_exists=False] returns the file name itself, outside the downloads
    directory. *)
Theorem get_path_absolute_filename_leaves_downloads_dir :
  forall (downloads_dir : string) (exists_ : string -> bool)
         (download_name filename : string),
    Str.contains_char "/" download_name = false ->
    Str.startswith filename "/" = true ->
    get_path downloads_dir exists_ download_name filename false
    = Return filename.
Proof.
  intros downloads_dir exists_ download_name filename Hname Hfile.
  unfold get_path. rewrite Hname. cbn [andb].
  unfold Str.join. cbn [fold_left]. unfold Str.join2 at 1.
  now rewrite Hfile.
Qed.

Lemma get_path_absolute_filename_leaves_downloads_dir_witness :
  get_path "/data/mhcflurry" (fun _ => false) "data_curated" "/etc/passwd"
    false
  = Return "/etc/passwd"%string.
Proof.
  apply (get_path_absolute_filename_leaves_downloads_dir
           "/data/mhcflurry" (fun _ => false) "data_curated" "/etc/passwd");
    reflexivity.
Defined.

(** X19. For a downloads directory that is not empty and does not end
    with ['/'], a [download_name] that is not empty and holds no ['/'] and
    a file name that does not start with ['/'], the path is the three
    parts with one ['/'] between them. *)
Theorem get_path_joins_with_single_slashes :
  forall (downloads_dir : string) (exists_ : string -> bool)
         (download_name filename : string),
    truthy_str downloads_dir = true ->
    Str.endswith downloads_dir "/" = false ->
    truthy_str download_name = true ->
    Str.contains_char "/" download_name = false ->
    Str.startswith filename "/" = false ->
    get_path downloads_dir exists_ download_name filename false
    = Return (downloads_dir ++ "/" ++ download_name ++ "/" ++ filename)%string.
Proof.
  intros downloads_dir exists_ download_name filename
    Hdir Hend Hname Hslash Hfile.
  unfold get_path. rewrite Hslash. cbn [andb]. f_equal.
  unfold Str.join, get_downloads_dir. cbn [fold_left].
  assert (E : Str.join2 downloads_dir download_name
              = (downloads_dir ++ "/" ++ download_name)%string).
  { unfold Str.join2.
    rewrite (startswith_of_contains _ _ Hslash), Hdir, Hend. reflexivity. }
  rewrite E. unfold Str.join2. rewrite Hfile.
  rewrite truthy_str_append_r
    by (apply truthy_str_append_r; exact Hname).
  rewrite endswith_append by (apply truthy_str_append_r; exact Hname).
  rewrite endswith_append by exact Hname.
  rewrite (endswith_of_contains _ _ Hslash). cbn [negb orb].
  now rewrite !append_assoc.
Qed.

Lemma get_path_joins_with_single_slashes_witness :
  get_path "/data/mhcflurry/4/1.2.0" (fun _ => false)
    "models_class1" "weights.csv" false
  = Return ("/data/mhcflurry/4/1.2.0" ++ "/" ++ "models_class1" ++ "/"
            ++ "weights.csv")%string.
Proof.
  apply (get_path_joins_with_single_slashes
           "/data/mhcflurry/4/1.2.0" (fun _ => false)
           "models_class1" "weights.csv");
    reflexivity.
Defined.

(** ** Configuration of the downloads *)

Lemma od_set_new {V : Type} (od : list (string * V)) (k : string) (v : V) :
  ~ In k (map fst od) -> od_set od k v = od ++ [(k, v)].
Proof.
  induction od as [|[k' v'] od IH]; simpl; [reflexivity|].
  intros H. destruct (String.eqb_spec k' k) as [E|E]; [tauto|].
  rewrite IH; tauto.
Qed.

Lemma join2_truthy (a b : string) :
  truthy_str a = true -> truthy_str (Str.join2 a b) = true.
Proof.
  intros Ha. unfold Str.join2.
  destruct (Str.startswith b "/") eqn:Hb.
  - destruct b; [discriminate|reflexivity].
  - destruct (negb (truthy_str a) || Str.endswith a "/");
      destruct a; simpl in *; congruence.
Qed.

Section ConfigureFacts.

Variable Download : Type.
Variable download_name_of : Download -> string.
Variable metadata : Metadata Download.
Variable environ : string -> option string.
Variable user_data_dir : string.
Variable exists_ : string -> bool.

(** The dict built from downloads of distinct names lists them in
    order. *)
Lemma downloads_dict_of_distinct_names (dir : string) (ds : list Download) :
  NoDup (map download_name_of ds) ->
  fold_left
    (fun od download =>
       od_set od (download_name_of download)
         (exists_ (Str.join dir [download_name_of download]), download))
    ds []
  = map (fun download =>
           (download_name_of download,
            (exists_ (Str.join dir [download_name_of download]), download)))
      ds.
Proof.
  set (entry := fun download =>
         (download_name_of download,
          (exists_ (Str.join dir [download_name_of download]), download))).
  enough (G : forall pre,
             NoDup (map download_name_of (pre ++ ds)) ->
             fold_left
               (fun od download =>
                  od_set od (download_name_of download)
                    (exists_ (Str.join dir [download_name_of download]),
                     download))
               ds (map entry pre)
             = map entry (pre ++ ds)).
  { intros H. exact (G [] H). }
  induction ds as [|d ds IH]; intros pre H; cbn [fold_left].
  - now rewrite app_nil_r.
  - rewrite od_set_new.
    + change (map entry pre ++ [(download_name_of d,
                (exists_ (Str.join dir [download_name_of d]), d))])
        with (map entry pre ++ map entry [d]).
      rewrite <- map_app, IH; rewrite <- app_assoc; [reflexivity|exact H].
    + rewrite map_map. unfold entry. cbn [fst].
      rewrite map_app in H. cbn [map] in H. apply NoDup_remove_2 in H.
      intros Hin. apply H. apply in_or_app. now left.
Qed.

(** X20. After a [configure] that went through,
    [get_current_release_downloads] raises [KeyError(None)] when
    [MHCFLURRY_DOWNLOADS_DIR] is set and not empty, the current release
    being [None] then, and returns the dict otherwise. *)
Theorem release_downloads_after_configure :
  forall cfg : Config,
    configure Download metadata environ user_data_dir = Return cfg ->
    if truthy_opt_str (environ "MHCFLURRY_DOWNLOADS_DIR")
    then cfg_CURRENT_RELEASE cfg = None
         /\ get_current_release_downloads Download download_name_of
              metadata exists_ cfg
            = Raise (mkKeyError None)
    else exists r od,
           cfg_CURRENT_RELEASE cfg = Some r
           /\ get_current_release_downloads Download download_name_of
                metadata exists_ cfg
              = Return od.
Proof.
  intros cfg. unfold configure.
  assert (G : configure_from_release Download metadata environ user_data_dir
              = Return cfg ->
              exists r od,
                cfg_CURRENT_RELEASE cfg = Some r
                /\ get_current_release_downloads Download download_name_of
                     metadata exists_ cfg
                   = Return od).
  { unfold configure_from_release.
    set (r := match environ "MHCFLURRY_DOWNLOADS_CURRENT_RELEASE" with
              | Some r => if truthy_str r then r else current_release metadata
              | None => current_release metadata
              end).
    destruct (lookup_release Download (releases metadata) r) as [rel|] eqn:E;
      [|discriminate].
    intros [= <-]. exists r. eexists. split; [reflexivity|].
    unfold get_current_release_downloads. cbn [cfg_CURRENT_RELEASE].
    rewrite E. reflexivity. }
  destruct (environ "MHCFLURRY_DOWNLOADS_DIR") as [d|]; cbn [truthy_opt_str].
  - destruct (truthy_str d); [|exact G].
    intros [= <-]. split; reflexivity.
  - exact G.
Qed.

(** X21. When [MHCFLURRY_DOWNLOADS_DIR] is unset or empty and
    [MHCFLURRY_DOWNLOADS_CURRENT_RELEASE] names a release that
    [downloads.yml] does not have, [configure] raises [KeyError] for that
    name, whatever [MHCFLURRY_DATA_DIR] is. *)
Theorem configure_unknown_release :
  forall r : string,
    truthy_opt_str (environ "MHCFLURRY_DOWNLOADS_DIR") = false ->
    environ "MHCFLURRY_DOWNLOADS_CURRENT_RELEASE" = Some r ->
    truthy_str r = true ->
    lookup_release Download (releases metadata) r = None ->
    configure Download metadata environ user_data_dir
    = Raise (mkKeyError (Some r)).
Proof.
  intros r Hdir Hrel Hr Hnone.
  assert (G : configure_from_release Download metadata environ user_data_dir
              = Raise (mkKeyError (Some r))).
  { unfold configure_from_release. rewrite Hrel, Hr, Hnone. reflexivity. }
  unfold configure.
  destruct (environ "MHCFLURRY_DOWNLOADS_DIR") as [d|]; [|exact G].
  cbn [truthy_opt_str] in Hdir. now rewrite Hdir.
Qed.

(** X22. When [user_data_dir] gives a non-empty directory, the downloads
    directory that a [configure] that went through has set is not empty;
    and unless it was taken from [MHCFLURRY_DOWNLOADS_DIR], the current
    release is one that [downloads.yml] has, and the compatibility warning
    was logged exactly when the version of that release is not the current
    one. *)
Theorem configure_sets_nonempty_downloads_dir :
  forall cfg : Config,
    truthy_str user_data_dir = true ->
    configure Download metadata environ user_data_dir = Return cfg ->
    truthy_str (cfg_DOWNLOADS_DIR cfg) = true
    /\ (truthy_opt_str (environ "MHCFLURRY_DOWNLOADS_DIR") = true
        \/ exists r release,
             cfg_CURRENT_RELEASE cfg = Some r
             /\ lookup_release Download (releases metadata) r = Some release
             /\ cfg_warned cfg
                = negb (compatibility_version release
                        =? current_compatibility_version metadata)).
Proof.
  intros cfg Hudd. unfold configure.
  assert (G : configure_from_release Download metadata environ user_data_dir
              = Return cfg ->
              truthy_str (cfg_DOWNLOADS_DIR cfg) = true
              /\ exists r release,
                   cfg_CURRENT_RELEASE cfg = Some r
                   /\ lookup_release Download (releases metadata) r
                      = Some release
                   /\ cfg_warned cfg
                      = negb (compatibility_version release
                              =? current_compatibility_version metadata)).
  { unfold configure_from_release.
    set (r := match environ "MHCFLURRY_DOWNLOADS_CURRENT_RELEASE" with
              | Some r => if truthy_str r then r else current_release metadata
              | None => current_release metadata
              end).
    destruct (lookup_release Download (releases metadata) r) as [rel|] eqn:E;
      [|discriminate].
    intros [= <-]. cbn [cfg_DOWNLOADS_DIR cfg_CURRENT_RELEASE cfg_warned].
    split.
    - unfold Str.join. cbn [fold_left]. apply join2_truthy.
      destruct (environ "MHCFLURRY_DATA_DIR") as [d|]; [|exact Hudd].
      destruct (truthy_str d) eqn:Hd; [exact Hd|exact Hudd].
    - exists r, rel. repeat split. exact E. }
  destruct (environ "MHCFLURRY_DOWNLOADS_DIR") as [d|]; cbn [truthy_opt_str].
  - destruct (truthy_str d) eqn:Hd.
    + intros [= <-]. split; [exact Hd|now left].
    + intros H. destruct (G H) as [H1 H2]. split; [exact H1|now right].
  - intros H. destruct (G H) as [H1 H2]. split; [exact H1|now right].
Qed.

(** X23. When the current release is one that [downloads.yml] has and
    its downloads have distinct names, [get_current_release_downloads]
    returns one entry per download, in the order of the file, whose
    [downloaded] flag tells whether the directory of that name exists
    under the downloads directory. *)
Theorem release_downloads_lists_each_download :
  forall (cfg : Config) (r : string) (release : Release Download),
    cfg_CURRENT_RELEASE cfg = Some r ->
    lookup_release Download (releases metadata) r = Some release ->
    NoDup (map download_name_of (downloads release)) ->
    get_current_release_downloads Download download_name_of metadata
      exists_ cfg
    = Return
        (map (fun download =>
                (download_name_of download,
                 (exists_ (Str.join (cfg_DOWNLOADS_DIR cfg)
                             [download_name_of download]),
                  download)))
           (downloads release)).
Proof.
  intros cfg r release Hr Hrel Hnd.
  unfold get_current_release_downloads. rewrite Hr, Hrel.
  now rewrite downloads_dict_of_distinct_names.
Qed.

End ConfigureFacts.

Lemma release_downloads_after_configure_witness :
  cfg_CURRENT_RELEASE (mkConfig "/srv/mhcflurry" None false) = None
  /\ get_current_release_downloads string (fun d => d) yml_1_2_0
       (fun _ => true) (mkConfig "/srv/mhcflurry" None false)
     = Raise (mkKeyError None).
Proof.
  exact (release_downloads_after_configure string (fun d => d) yml_1_2_0
           environ_downloads_dir "/home/u/.local/share/mhcflurry/4"
           (fun _ => true) (mkConfig "/srv/mhcflurry" None false) eq_refl).
Defined.

Lemma configure_unknown_release_witness :
  configure string yml_1_2_0 environ_release_0_9
    "/home/u/.local/share/mhcflurry/4"
  = Raise (mkKeyError (Some "0.9"%string)).
Proof.
  apply (configure_unknown_release string yml_1_2_0 environ_release_0_9
           "/home/u/.local/share/mhcflurry/4" "0.9");
    reflexivity.
Defined.

Lemma configure_sets_nonempty_downloads_dir_witness :
  truthy_str "/home/u/.local/share/mhcflurry/4/1.2.0" = true
  /\ (truthy_opt_str (environ_unset "MHCFLURRY_DOWNLOADS_DIR") = true
      \/ exists r release,
           Some "1.2.0"%string = Some r
           /\ lookup_release string (releases yml_1_2_0) r = Some release
           /\ false
              = negb (compatibility_version release
                      =? current_compatibility_version yml_1_2_0)).
Proof.
  exact (configure_sets_nonempty_downloads_dir string yml_1_2_0
           environ_unset "/home/u/.local/share/mhcflurry/4"
           (mkConfig "/home/u/.local/share/mhcflurry/4/1.2.0"
              (Some "1.2.0"%string) false)
           eq_refl eq_refl).
Defined.

Lemma release_downloads_lists_each_download_witness :
  get_current_release_downloads string (fun d => d) yml_1_2_0
    (fun p => String.eqb p "/srv/mhcflurry/data_curated")
    (mkConfig "/srv/mhcflurry" (Some "1.2.0"%string) false)
  = Return [("models_class1"%string, (false, "models_class1"%string));
            ("data_curated"%string, (true, "data_curated"%string))].
Proof.
  apply (release_downloads_lists_each_download string (fun d => d)
           yml_1_2_0 (fun p => String.eqb p "/srv/mhcflurry/data_curated")
           (mkConfig "/srv/mhcflurry" (Some "1.2.0"%string) false)
           "1.2.0" (mkRelease 2 ["models_class1"; "data_curated"]%string)).
  - reflexivity.
  - reflexivity.
  - repeat constructor; simpl; intuition discriminate.
Defined.
